(** * The cache-aside layer of Eiga (cacheService)

    A shallow embedding of [cacheService] (loadFromCache, saveToCache,
    clearCache, clearUserCache, withCache) and of the module-level
    [pendingRequests] registry.

    The source is asynchronous JavaScript.  Each function is embedded once, as
    a tree of the effects it performs ([prog]); the tree is then given two
    readings:
    - [run]: one call running alone until its promise settles;
    - [exec]: several calls interleaved at their [await]s, the code between
      two [await]s running to completion, as on the JavaScript event loop.
    [run_is_a_schedule] relates the two.

    What stands outside the module is represented as follows.
    - AsyncStorage is a finite map from keys to strings, each call of which
      may reject ([faulty]); a stored string is represented by what
      [JSON.parse] and the destructuring of line 20 read from it ([stored]).
    - A payload is a JavaScript value ([jsval]); what is stored of it is
      what the JSON round trip leaves ([JSON_roundtrip]).
    - A string is represented by its UTF-8 encoding; [s.length] counts UTF-16
      code units ([js_length]).
    - [Date.now()] reads [clock]; time passes by [tick].
    - A [fetchFn] is represented by the way its promise settles; every
      invocation adds one promise to [promises]. *)

From Stdlib Require Import ZArith String Ascii List Lia.
From stdpp Require Import gmap strings list fin_maps pretty.

Local Open Scope Z_scope.

(** ** JavaScript values *)

(** A value a [fetchFn] can resolve with, and so a payload [saveToCache] can
    be handed.  A finite number is represented by an integer: for what this
    module does with a payload (the JSON round trip, [!== null], [if (v)])
    a fractional number behaves as a non-zero integer does, and [-0] as [0].
    A [Date] is given by what its [toISOString()] returns, [None] for an
    invalid date.  An object is the list of its own enumerable properties, in
    order, each name occurring once.  Values [JSON.stringify] throws on
    (a BigInt, a cycle) are left out. *)
#[warnings="-register-all"]
Inductive jsval : Type :=
| Undefined
| JNull
| JBool (b : bool)
| JNum (n : Z)
| JNaN
| JInfinity (negative : bool)
| JStr (s : string)
| JDate (toISOString : option string)
| JArr (items : list jsval)
| JObj (fields : list (string * jsval)).

Definition null : jsval := JNull.

(** [if (v)] *)
Definition truthy (v : jsval) : bool :=
  match v with
  | Undefined => false
  | JNull => false
  | JBool b => b
  | JNum n => negb (n =? 0)
  | JNaN => false
  | JInfinity _ => true
  | JStr s => negb (String.eqb s "")
  | JDate _ => true
  | JArr _ => true
  | JObj _ => true
  end.

(** [v !== null] *)
Definition not_null (v : jsval) : bool :=
  match v with
  | JNull => false
  | _ => true
  end.

(** [JSON.parse(JSON.stringify(v))], and [Undefined] where [JSON.stringify]
    gives [undefined]: a number that is not finite becomes [null], a [Date]
    its ISO string ([null] when invalid); in an array [undefined] becomes
    [null]; a property whose value is [undefined] is dropped. *)
Fixpoint JSON_roundtrip (v : jsval) : jsval :=
  match v with
  | JNaN => JNull
  | JInfinity _ => JNull
  | JDate (Some iso) => JStr iso
  | JDate None => JNull
  | JArr items =>
      JArr (map (fun item =>
                   match JSON_roundtrip item with
                   | Undefined => JNull
                   | item' => item'
                   end) items)
  | JObj fields =>
      JObj (flat_map (fun field =>
                        match JSON_roundtrip (snd field) with
                        | Undefined => []
                        | value' => [(fst field, value')]
                        end) fields)
  | _ => v
  end.

(** A string is represented by its UTF-8 encoding.  [js_length s] is
    [s.length], the number of UTF-16 code units of the string: the byte that
    starts a character of one, two or three bytes counts for one unit, the
    byte that starts a character of four bytes for two (a surrogate pair),
    and a continuation byte for none. *)
Definition utf16_units (c : ascii) : nat :=
  let byte := nat_of_ascii c in
  if (byte <? 128)%nat then 1%nat
  else if (byte <? 192)%nat then 0%nat
  else if (byte <? 240)%nat then 1%nat
  else 2%nat.

Fixpoint js_length (s : string) : nat :=
  match s with
  | EmptyString => 0%nat
  | String c s' => (utf16_units c + js_length s')%nat
  end.

(** [if (s)] on a string, as in [userId ? ... : key]. *)
Definition nonempty (s : string) : bool := negb (String.eqb s "").

(** The result of [ToNumber]: an integer, or NaN. *)
Inductive number : Type :=
| NaN
| Num (z : Z).

(** [a - b] *)
Definition minus (a b : number) : number :=
  match a, b with
  | Num x, Num y => Num (x - y)
  | _, _ => NaN
  end.

(** [a < b]: false as soon as one side is NaN. *)
Definition less (a b : number) : bool :=
  match a, b with
  | Num x, Num y => x <? y
  | _, _ => false
  end.

(** ** Cache configuration (lines 4-6) *)

Definition DEFAULT_CACHE_EXPIRY : Z := 1000 * 60 * 15.
Definition LONG_CACHE_EXPIRY : Z := 1000 * 60 * 60.
Definition SHORT_CACHE_EXPIRY : Z := 1000 * 60 * 5.

(** ** AsyncStorage *)

(** A string held by AsyncStorage, represented by what line 19 and line 20 of
    the source read from it:
    - [Blank]: the empty string, which [if (cachedDataString)] skips;
    - [Malformed]: a string on which [JSON.parse], or the destructuring of
      its result, throws;
    - [Envelope data timestamp expiry]: any other string; [data] is the value
      of its [data] field ([Undefined] when it has none; the values that no
      JSON text denotes stand for no string), [timestamp] is [ToNumber] of
      its [timestamp]
      field (NaN when missing or not a number), and [expiry] is [None] when
      the field is missing (the destructuring default applies) and [ToNumber]
      of the field otherwise. *)
Inductive stored : Type :=
| Blank
| Malformed
| Envelope (data : jsval) (timestamp : number) (expiry : option number).

Inductive storage_call : Type :=
| GetItem (k : string)
| SetItem (k : string) (v : stored)
| RemoveItem (k : string)
| GetAllKeys
| MultiRemove (ks : list string).

Definition storage_result (c : storage_call) : Type :=
  match c with
  | GetItem _ => option stored
  | SetItem _ _ => unit
  | RemoveItem _ => unit
  | GetAllKeys => list string
  | MultiRemove _ => unit
  end.

(** [if (cachedDataString)] *)
Definition nonblank (s : stored) : bool :=
  match s with
  | Blank => false
  | _ => true
  end.

(** What can be thrown. *)
Inductive error : Type :=
| StorageError (c : storage_call)
| SyntaxError
| Exception (reason : jsval).

(** How a promise settles. *)
Inductive settled : Type :=
| Fulfilled (v : jsval)
| Rejected (e : error).

(** A caller-supplied [fetchFn: () => Promise<T>], invoked at most once per
    [withCache] call: it is represented by how the promise it returns will
    settle. *)
Definition fetchFn : Type := settled.

Inductive output : Type :=
| Log (msg : string)
| Error (msg : string) (e : error).

(** One promise returned by an invocation of a [fetchFn]. *)
Record promise : Type := Promise {
  outcome : settled;
  is_settled : bool
}.

(** ** The state the code runs against *)

Record World : Type := MkWorld {
  store : gmap string stored;          (* AsyncStorage contents *)
  faulty : storage_call -> bool;       (* the AsyncStorage calls that reject *)
  clock : Z;                           (* Date.now() *)
  pendingRequests : gmap string nat;   (* line 9; a promise is named by its index *)
  promises : list promise;             (* one per fetchFn() invocation, in order *)
  console : list output;               (* console.log / console.error, in order *)
  calls : list storage_call            (* AsyncStorage calls made, in order *)
}.

Definition with_store (s : gmap string stored) (w : World) : World :=
  MkWorld s (faulty w) (clock w) (pendingRequests w) (promises w) (console w) (calls w).
Definition with_pending (p : gmap string nat) (w : World) : World :=
  MkWorld (store w) (faulty w) (clock w) p (promises w) (console w) (calls w).
Definition with_promises (ps : list promise) (w : World) : World :=
  MkWorld (store w) (faulty w) (clock w) (pendingRequests w) ps (console w) (calls w).
Definition with_console (c : list output) (w : World) : World :=
  MkWorld (store w) (faulty w) (clock w) (pendingRequests w) (promises w) c (calls w).
Definition with_calls (cs : list storage_call) (w : World) : World :=
  MkWorld (store w) (faulty w) (clock w) (pendingRequests w) (promises w) (console w) cs.

(** [d] milliseconds pass. *)
Definition tick (d : Z) (w : World) : World :=
  MkWorld (store w) (faulty w) (clock w + d) (pendingRequests w) (promises w)
          (console w) (calls w).

(** The number of [fetchFn] invocations so far. *)
Definition invocations (w : World) : nat := length (promises w).

(** ** Effects *)

Inductive action : Type :=
| DateNow
| Console (o : output)
| Storage (c : storage_call)                (* await AsyncStorage.f(...) *)
| PendingRead (k : string)                  (* pendingRequests[k] *)
| PendingWrite (k : string) (p : nat)       (* pendingRequests[k] = p *)
| PendingDelete (k : string)                (* delete pendingRequests[k] *)
| Invoke (f : fetchFn)                      (* fetchFn() *)
| Await (p : option nat).                   (* await e, e a promise or undefined *)

Definition result (a : action) : Type :=
  match a with
  | DateNow => Z
  | Console _ => unit
  | Storage c => (error + storage_result c)%type
  | PendingRead _ => option nat
  | PendingWrite _ _ => unit
  | PendingDelete _ => unit
  | Invoke _ => nat
  | Await _ => settled
  end.

(** The actions at which an async function is suspended. *)
Definition suspends (a : action) : bool :=
  match a with
  | Storage _ | Await _ => true
  | _ => false
  end.

(** The effects of a piece of code, in order. *)
Inductive prog (A : Type) : Type :=
| Ret (a : A)
| Throw (e : error)
| Act (a : action) (k : result a -> prog A).

Arguments Ret {A} a.
Arguments Throw {A} e.
Arguments Act {A} a k.

Fixpoint bind {A B : Type} (p : prog A) (f : A -> prog B) : prog B :=
  match p with
  | Ret a => f a
  | Throw e => Throw e
  | Act a k => Act a (fun r => bind (k r) f)
  end.

#[global] Instance prog_ret : MRet prog := @Ret.
#[global] Instance prog_bind : MBind prog := fun A B f p => bind p f.

(** [try { p } catch (error) { h error }] *)
Fixpoint try_catch {A : Type} (p : prog A) (h : error -> prog A) : prog A :=
  match p with
  | Ret a => Ret a
  | Throw e => h e
  | Act a k => Act a (fun r => try_catch (k r) h)
  end.

(** [try { p } finally { f }] *)
Fixpoint try_finally {A : Type} (p : prog A) (f : prog unit) : prog A :=
  match p with
  | Ret a => bind f (fun _ => Ret a)
  | Throw e => bind f (fun _ => Throw e)
  | Act a k => Act a (fun r => try_finally (k r) f)
  end.

Definition act (a : action) : prog (result a) := Act a Ret.

Definition Date_now : prog Z := act DateNow.
Definition console_log (msg : string) : prog unit := act (Console (Log msg)).
Definition console_error (msg : string) (e : error) : prog unit :=
  act (Console (Error msg e)).

(** [await AsyncStorage.f(...)]: the value, or the rejection thrown. *)
Definition AsyncStorage (c : storage_call) : prog (storage_result c) :=
  Act (Storage c) (fun r => match r with inl e => Throw e | inr x => Ret x end).

(** [await e] *)
Definition await (p : option nat) : prog jsval :=
  Act (Await p) (fun r => match r with Fulfilled v => Ret v | Rejected e => Throw e end).

(** [await f(...)] for an async function [f] of this module: the body of [f]
    runs, and the caller resumes in a later turn of the event loop. *)
Definition await_call {A : Type} (body : prog A) : prog A :=
  try_finally body (Act (Await None) (fun _ => Ret tt)).

(** [JSON.stringify] of the envelope built at lines 41-45, as the string is
    read back: [data] is what the JSON round trip leaves of the payload. *)
Definition JSON_stringify (data : jsval) (timestamp expiry : Z) : stored :=
  Envelope (JSON_roundtrip data) (Num timestamp) (Some (Num expiry)).

(** [JSON.parse] followed by the destructuring of line 20, before the default
    for [expiry] is applied. *)
Definition JSON_parse (s : stored) : prog (jsval * number * option number) :=
  match s with
  | Blank => Throw SyntaxError
  | Malformed => Throw SyntaxError
  | Envelope data timestamp expiry => Ret (data, timestamp, expiry)
  end.

(** [s.includes(sub)] *)
Definition includes (s sub : string) : bool :=
  match String.index 0 sub s with
  | Some _ => true
  | None => false
  end.

(** ** cacheService *)

Module cacheService.

(** [userId ? `${key}_${userId}` : key] *)
Definition cacheKey (key : string) (userId : option string) : string :=
  match userId with
  | Some u => if nonempty u then key +:+ "_" +:+ u else key
  | None => key
  end.

(** Lines 14-35.  The body of the [try] yields [Some data] when it returns
    at line 26 and [None] when control falls out of it to line 34. *)
Definition loadFromCache (key : string) (userId : option string) : prog jsval :=
  early ← try_catch
    (let cacheKey := cacheKey key userId in
     cachedDataString ← AsyncStorage (GetItem cacheKey);
     match cachedDataString with
     | Some s =>
         if nonblank s then
           '(data, timestamp, expiry) ← JSON_parse s;
           let expiry := default (Num DEFAULT_CACHE_EXPIRY) expiry in
           now ← Date_now;
           if less (minus (Num now) timestamp) expiry then
             console_log ("[CACHE] Using cached " +:+ key +:+ " data");;
             mret (Some data)
           else
             console_log ("[CACHE] " +:+ key +:+ " cache expired");;
             mret None
         else mret None
     | None => mret None
     end)
    (fun error =>
       console_error ("[CACHE] Error loading " +:+ key +:+ " from cache:") error;;
       mret None);
  match early with
  | Some data => mret data
  | None => mret null
  end.

(** Lines 38-51. *)
Definition saveToCache (key : string) (data : jsval) (userId : option string)
    (expiry : option Z) : prog unit :=
  let expiry := default DEFAULT_CACHE_EXPIRY expiry in
  try_catch
    (let cacheKey := cacheKey key userId in
     now ← Date_now;
     let cacheData := JSON_stringify data now expiry in
     AsyncStorage (SetItem cacheKey cacheData);;
     console_log ("[CACHE] " +:+ key +:+ " data cached successfully"))
    (fun error =>
       console_error ("[CACHE] Error caching " +:+ key +:+ " data:") error).

(** Lines 54-62. *)
Definition clearCache (key : string) (userId : option string) : prog unit :=
  try_catch
    (let cacheKey := cacheKey key userId in
     AsyncStorage (RemoveItem cacheKey);;
     console_log ("[CACHE] " +:+ key +:+ " cache cleared"))
    (fun error =>
       console_error ("[CACHE] Error clearing " +:+ key +:+ " cache:") error).

(** Lines 65-76. *)
Definition clearUserCache (userId : string) : prog unit :=
  try_catch
    (keys ← AsyncStorage GetAllKeys;
     let userKeys := List.filter (fun key => includes key ("_" +:+ userId)) keys in
     if (0 <? length userKeys)%nat then
       AsyncStorage (MultiRemove userKeys);;
       console_log ("[CACHE] All cache cleared for user " +:+ userId)
     else mret tt)
    (fun error =>
       console_error "[CACHE] Error clearing user cache:" error).

(** Lines 99-117: the rest of [withCache] once the cache has not answered. *)
Definition withCache_pending (key : string) (fetchFn : fetchFn)
    (userId : option string) (expiry : Z) : prog jsval :=
  let cacheKey := cacheKey key userId in
  pending ← act (PendingRead cacheKey);
  settledValue ← await pending;
  if truthy settledValue then
    console_log ("[CACHE] Reusing pending request for " +:+ key);;
    pending ← act (PendingRead cacheKey);
    await pending
  else
    try_finally
      (p ← act (Invoke fetchFn);
       act (PendingWrite cacheKey p);;
       pending ← act (PendingRead cacheKey);
       data ← await pending;
       await_call (saveToCache key data userId (Some expiry));;
       mret data)
      (act (PendingDelete cacheKey)).

(** Lines 79-118.  [cached] is [Some cachedData] when line 95 returns. *)
Definition withCache (key : string) (fetchFn : fetchFn) (userId : option string)
    (expiry : option Z) (forceRefresh : bool) : prog jsval :=
  let expiry := default DEFAULT_CACHE_EXPIRY expiry in
  cached ←
    (if forceRefresh then
       await_call (clearCache key userId);;
       mret None
     else
       cachedData ← await_call (loadFromCache key userId);
       if not_null cachedData then mret (Some cachedData) else mret None);
  match cached with
  | Some cachedData => mret cachedData
  | None => withCache_pending key fetchFn userId expiry
  end.

End cacheService.

Import cacheService.

(** ** What each effect does *)

Definition AsyncStorage_call (c : storage_call) (w : World)
    : (error + storage_result c) * World :=
  let w := with_calls (calls w ++ [c]) w in
  if faulty w c then (inl (StorageError c), w)
  else
    match c as c0 return (error + storage_result c0) * World with
    | GetItem k => (inr (store w !! k), w)
    | SetItem k v => (inr tt, with_store (<[k:=v]> (store w)) w)
    | RemoveItem k => (inr tt, with_store (delete k (store w)) w)
    | GetAllKeys => (inr (map fst (map_to_list (store w))), w)
    | MultiRemove ks => (inr tt, with_store (foldr delete (store w) ks) w)
    end.

Definition perform (a : action) (w : World) : result a * World :=
  match a as a0 return result a0 * World with
  | DateNow => (clock w, w)
  | Console o => (tt, with_console (console w ++ [o]) w)
  | Storage c => AsyncStorage_call c w
  | PendingRead k => (pendingRequests w !! k, w)
  | PendingWrite k p => (tt, with_pending (<[k:=p]> (pendingRequests w)) w)
  | PendingDelete k => (tt, with_pending (delete k (pendingRequests w)) w)
  | Invoke f => (length (promises w), with_promises (promises w ++ [Promise f false]) w)
  | Await None => (Fulfilled Undefined, w)
  | Await (Some p) =>
      (match promises w !! p with
       | Some c => outcome c
       | None => Fulfilled Undefined
       end, w)
  end.

(** The promise [p] settles. *)
Definition settle (p : nat) (w : World) : World :=
  with_promises (alter (fun c => Promise (outcome c) true) p (promises w)) w.

(** ** One call running alone *)

(** While a lone caller is suspended on a promise, that promise settles. *)
Definition while_suspended (a : action) (w : World) : World :=
  match a with
  | Await (Some p) => settle p w
  | _ => w
  end.

(** [run p w]: how the promise of the async call [p] settles ([inr v]:
    fulfilled with [v]; [inl e]: rejected with [e]) and the state it leaves,
    when nothing else runs meanwhile. *)
Fixpoint run {A : Type} (p : prog A) (w : World) : (error + A) * World :=
  match p with
  | Ret a => (inr a, w)
  | Throw e => (inl e, w)
  | Act a k => let '(r, w') := perform a (while_suspended a w) in run (k r) w'
  end.

(** ** Several calls on the event loop *)

(** Run [p] up to its next suspension. *)
Fixpoint advance {A : Type} (p : prog A) (w : World) : prog A * World :=
  match p with
  | Act a k =>
      if suspends a then (Act a k, w)
      else let '(r, w') := perform a w in advance (k r) w'
  | _ => (p, w)
  end.

(** Whether what a suspended call waits for has arrived.  An index that names
    no promise is read as [undefined], here as in [perform]. *)
Definition ready (a : action) (w : World) : bool :=
  match a with
  | Await (Some p) =>
      match promises w !! p with
      | Some c => is_settled c
      | None => true
      end
  | _ => true
  end.

(** Resume a suspended call and run it to its next suspension. *)
Definition resume {A : Type} (p : prog A) (w : World) : option (prog A * World) :=
  match p with
  | Act a k =>
      if suspends a && ready a w
      then let '(r, w') := perform a w in Some (advance (k r) w')
      else None
  | _ => None
  end.

Record System : Type := MkSystem {
  world : World;
  tasks : list (prog jsval)     (* the calls made so far; [Ret]/[Throw] once settled *)
}.

Inductive event : Type :=
| Call (p : prog jsval)         (* a caller invokes an async function *)
| Resume (i : nat)              (* the event loop resumes call [i] *)
| Settle (p : nat)              (* the fetch behind promise [p] completes *)
| Elapse (d : Z).               (* [d] ms pass *)

Definition exec (e : event) (s : System) : option System :=
  match e with
  | Call p =>
      let '(p', w') := advance p (world s) in
      Some (MkSystem w' (tasks s ++ [p']))
  | Resume i =>
      t ← tasks s !! i;
      '(t', w') ← resume t (world s);
      Some (MkSystem w' (<[i:=t']> (tasks s)))
  | Settle p =>
      match promises (world s) !! p with
      | Some c => if is_settled c then None else Some (MkSystem (settle p (world s)) (tasks s))
      | None => None
      end
  | Elapse d =>
      if 0 <=? d then Some (MkSystem (tick d (world s)) (tasks s)) else None
  end.

Fixpoint exec_all (es : list event) (s : System) : option System :=
  match es with
  | [] => Some s
  | e :: es' => s' ← exec e s; exec_all es' s'
  end.

(** How call [i] has settled, if it has. *)
Definition settlement (s : System) (i : nat) : option settled :=
  match tasks s !! i with
  | Some (Ret v) => Some (Fulfilled v)
  | Some (Throw e) => Some (Rejected e)
  | _ => None
  end.

(** A state with the given store and nothing else. *)
Definition fresh_world (s : gmap string stored) (now : Z) : World :=
  MkWorld s (fun _ => false) now ∅ [] [] [].

(** ** Vocabulary of the statements *)

(** Only AsyncStorage and the console separate [w'] from [w]. *)
Definition same_memory (w w' : World) : Prop :=
  faulty w' = faulty w /\ clock w' = clock w /\
  pendingRequests w' = pendingRequests w /\ promises w' = promises w.

(** The payload [loadFromCache] finds under the composite key [ck], if any. *)
Definition fresh_payload (w : World) (ck : string) : option jsval :=
  if faulty w (GetItem ck) then None
  else
    match store w !! ck with
    | Some (Envelope data timestamp expiry) =>
        if less (minus (Num (clock w)) timestamp)
                (default (Num DEFAULT_CACHE_EXPIRY) expiry)
        then Some data else None
    | _ => None
    end.

(** A payload that [JSON.parse(JSON.stringify(p))] gives back unchanged. *)
Definition JSON_stable (p : jsval) : Prop := JSON_roundtrip p = p.

(** How the promise returned by [f] settles, as the result of a call. *)
Definition settlement_of (f : fetchFn) : error + jsval :=
  match f with
  | Fulfilled v => inr v
  | Rejected e => inl e
  end.

(** [w'] is [w] after one invocation of [f], whose payload (if it produced
    one) was handed to [saveToCache] under the composite key [ck]. *)
Definition after_fetch (f : fetchFn) (ck : string) (expiry : Z) (w w' : World) : Prop :=
  promises w' = promises w ++ [Promise f true] /\
  pendingRequests w' = pendingRequests w /\
  faulty w' = faulty w /\ clock w' = clock w /\
  match f with
  | Fulfilled v =>
      let entry := JSON_stringify v (clock w) expiry in
      store w' = (if faulty w (SetItem ck entry) then store w
                  else <[ck:=entry]> (store w)) /\
      calls w' = calls w ++ [SetItem ck entry]
  | Rejected _ => store w' = store w /\ calls w' = calls w
  end.

(** Nothing but [null] is to be found under [ck]: no valid entry, or [null]. *)
Definition no_answer (w : World) (ck : string) : Prop :=
  not_null (default null (fresh_payload w ck)) = false.

(** A cache miss: [loadFromCache] resolves to [null]. *)
Definition miss (w : World) (key : string) (userId : option string) : Prop :=
  fst (run (loadFromCache key userId) w) = inr null.

(** An entry is valid if and only if [now - storedAt < ttl]: the store can be
    read under the composite key, what is read is an envelope with a numeric
    [storedAt], its [ttl] (the default when it carries none) is a number, and
    the entry is younger than that. *)
Inductive valid_entry (w : World) (ck : string) (payload : jsval) : Prop :=
| ValidEntry (storedAt ttl : Z) (expiry : option number) :
    faulty w (GetItem ck) = false ->
    store w !! ck = Some (Envelope payload (Num storedAt) expiry) ->
    default (Num DEFAULT_CACHE_EXPIRY) expiry = Num ttl ->
    clock w - storedAt < ttl ->
    valid_entry w ck payload.

(** AsyncStorage answers every call. *)
Definition healthy (w : World) : Prop := forall c, faulty w c = false.

(** A store that rejects every write. *)
Definition read_only_world (s : gmap string stored) (now : Z) : World :=
  MkWorld s (fun c => match c with SetItem _ _ => true | _ => false end) now ∅ [] [] [].

(** [s.endsWith(suffix)], the match a sweep by scope suffix would use. *)
Definition endsWith (s suffix : string) : bool :=
  let n := String.length s in
  let m := String.length suffix in
  (m <=? n)%nat && String.eqb (String.substring (n - m) m s) suffix.

(** The store of a device on which user 42 and user 421 have both signed in,
    and the details of movie 420 are cached. *)
Definition shared_device : World :=
  fresh_world
    (<["eiga_user_rooms_42" := Envelope (JStr "rooms of 42") (Num 1700000000000) (Some (Num 900000))]>
     (<["eiga_user_rooms_421" := Envelope (JStr "rooms of 421") (Num 1700000000000) (Some (Num 900000))]>
      (<["eiga_movie_details_420" := Envelope (JStr "movie 420") (Num 1700000000000) (Some (Num 3600000))]>
       ∅)))
    1700000060000.

(** Where a call is suspended, if it is. *)
Definition suspended_at (p : prog jsval) : option action :=
  match p with
  | Act a _ => Some a
  | _ => None
  end.

(** An empty cache, nothing in flight, no call made yet. *)
Definition idle : System := MkSystem (fresh_world ∅ 1700000000000) [].

(** The [n]-th invocation of the callers' counting [fetchFn] resolves to [n]. *)
Definition nth_fetch (n : Z) : fetchFn := Fulfilled (JNum n).

Definition first_call : prog jsval :=
  withCache "eiga_user_rooms" (nth_fetch 1) (Some "user123") None false.
Definition second_call : prog jsval :=
  withCache "eiga_user_rooms" (nth_fetch 2) (Some "user123") None false.

(** Two calls made in the same turn, then resumed in turn, as the event loop
    resumes them: both read the store (line 17), both return from
    [loadFromCache] (line 93), both come back from the [await] of line 100. *)
Definition both_check : list event :=
  [Call first_call; Call second_call;
   Resume 0%nat; Resume 1%nat; Resume 0%nat; Resume 1%nat].
Definition first_registers : list event :=
  both_check ++ [Resume 0%nat].
Definition both_fetch : list event :=
  first_registers ++ [Resume 1%nat].
Definition both_finish : list event :=
  both_fetch ++ [Settle 0%nat; Settle 1%nat;
                 Resume 0%nat; Resume 1%nat; Resume 0%nat; Resume 1%nat;
                 Resume 0%nat; Resume 1%nat].

(** The same race for any key, scope and pair of [fetchFn]s. *)
Definition race (key : string) (userId : option string) (expiry : option Z)
    (f1 f2 : fetchFn) : list event :=
  [Call (withCache key f1 userId expiry false);
   Call (withCache key f2 userId expiry false);
   Resume 0%nat; Resume 1%nat; Resume 0%nat; Resume 1%nat; Resume 0%nat; Resume 1%nat].

(** A call that arrives while a fetch is registered and unsettled attaches to
    it when the payload is truthy: one invocation, one payload for both. *)
Definition second_attaches (f : fetchFn) : list event :=
  [Call (withCache "eiga_user_rooms" f (Some "user123") None false);
   Resume 0%nat; Resume 0%nat; Resume 0%nat;
   Call second_call;
   Resume 1%nat; Resume 1%nat;
   Settle 0%nat;
   Resume 0%nat; Resume 1%nat; Resume 1%nat].

(** A settled call, as a task of the event loop. *)
Definition final (r : error + jsval) : prog jsval :=
  match r with
  | inr v => Ret v
  | inl e => Throw e
  end.

(** The events by which the event loop takes the lone call [p] from [w] to
    its end: the promise it awaits settles, the call is resumed. *)
Fixpoint lone_schedule (p : prog jsval) (w : World) : list event :=
  match p with
  | Act a k =>
      let '(r, w') := perform a (while_suspended a w) in
      match a with
      | Await (Some q) => if ready a w then [] else [Settle q]
      | _ => []
      end ++ (if suspends a then [Resume 0%nat] else []) ++ lone_schedule (k r) w'
  | _ => []
  end.

(** ** The callers of the cache *)

(** [CACHE_KEYS], lines 129-141 of the cache module. *)
Module CACHE_KEYS.
Definition USER_ROOMS : string := "eiga_user_rooms".
Definition USER_PLAN : string := "eiga_user_plan".
Definition TRENDING_MOVIES : string := "eiga_trending_movies".
Definition PROVIDER_GENRE_MOVIES : string := "eiga_provider_genre_movies".
Definition MOVIE_DETAILS : string := "eiga_movie_details".
Definition ROOM_DETAILS : string := "eiga_room_details".
Definition SEARCH_RESULTS : string := "eiga_search_results".
Definition USER_WATCHED_MOVIES : string := "eiga_user_watched_movies".
Definition ROOM_WATCHED_MOVIES : string := "eiga_room_watched_movies".
Definition ROOM_SUGGESTIONS : string := "eiga_room_suggestions".
Definition ROOM_MEMBERS : string := "eiga_room_members".
End CACHE_KEYS.

(** [Object.values(CACHE_KEYS)] *)
Definition CACHE_KEYS_values : list string :=
  [CACHE_KEYS.USER_ROOMS; CACHE_KEYS.USER_PLAN; CACHE_KEYS.TRENDING_MOVIES;
   CACHE_KEYS.PROVIDER_GENRE_MOVIES; CACHE_KEYS.MOVIE_DETAILS;
   CACHE_KEYS.ROOM_DETAILS; CACHE_KEYS.SEARCH_RESULTS;
   CACHE_KEYS.USER_WATCHED_MOVIES; CACHE_KEYS.ROOM_WATCHED_MOVIES;
   CACHE_KEYS.ROOM_SUGGESTIONS; CACHE_KEYS.ROOM_MEMBERS].

(** [`${n}`] for an integer [n]: its decimal numeral. *)
Definition show (n : Z) : string := pretty n.

(** ['day' | 'week'] *)
Inductive timeWindow : Type :=
| day
| week.

Definition timeWindow_text (t : timeWindow) : string :=
  match t with
  | day => "day"
  | week => "week"
  end.

(** [tmdbService] of src/services/tmdbapi.ts.  A request to the TMDB API,
    with the reading of [response.data] that follows it, is represented like
    a [fetchFn], by the way it settles.  The [cacheKey] each function builds
    is given a name of its own. *)
Module tmdbService.

(** [getRegion], line 24. *)
Definition getRegion : string := "IN".

(** Line 64. *)
Definition getMovieProviders_cacheKey (movieId : Z) : string :=
  CACHE_KEYS.MOVIE_DETAILS +:+ "_providers_" +:+ show movieId.

(** Lines 63-75. *)
Definition getMovieProviders (movieId : Z) (request : fetchFn) : prog jsval :=
  let cacheKey := getMovieProviders_cacheKey movieId in
  withCache cacheKey request None (Some LONG_CACHE_EXPIRY) false.

Section Search.
(** [String.prototype.toLowerCase] and [String.prototype.trim]. *)
Variable toLowerCase : string -> string.
Variable trim : string -> string.

(** Line 97. *)
Definition searchMovies_cacheKey (query : string) : string :=
  CACHE_KEYS.SEARCH_RESULTS +:+ "_" +:+ trim (toLowerCase query).

(** Lines 78-114. *)
Definition searchMovies (query : string) (request : fetchFn) : prog jsval :=
  if (js_length query <? 3)%nat then
    try_catch
      (response ← act (Invoke request);
       await (Some response))
      (fun error =>
         console_error "Error searching movies:" error;;
         Throw error)
  else
    let cacheKey := searchMovies_cacheKey query in
    withCache cacheKey request None (Some SHORT_CACHE_EXPIRY) false.

(** Line 136. *)
Definition searchTV_cacheKey (query : string) : string :=
  CACHE_KEYS.SEARCH_RESULTS +:+ "_tv_" +:+ trim (toLowerCase query).

(** Lines 117-153. *)
Definition searchTV (query : string) (request : fetchFn) : prog jsval :=
  if (js_length query <? 3)%nat then
    try_catch
      (response ← act (Invoke request);
       await (Some response))
      (fun error =>
         console_error "Error searching TV shows:" error;;
         Throw error)
  else
    let cacheKey := searchTV_cacheKey query in
    withCache cacheKey request None (Some SHORT_CACHE_EXPIRY) false.

End Search.

(** Line 157. *)
Definition getMovieDetails_cacheKey (movieId : Z) : string :=
  CACHE_KEYS.MOVIE_DETAILS +:+ "_" +:+ show movieId.

(** Lines 156-172. *)
Definition getMovieDetails (movieId : Z) (request : fetchFn) : prog jsval :=
  let cacheKey := getMovieDetails_cacheKey movieId in
  withCache cacheKey request None (Some LONG_CACHE_EXPIRY) false.

(** Line 176. *)
Definition getTrendingMovies_cacheKey (timeWindow : timeWindow) : string :=
  CACHE_KEYS.TRENDING_MOVIES +:+ "_" +:+ timeWindow_text timeWindow.

(** Line 185. *)
Definition getTrendingMovies_expiry (timeWindow : timeWindow) : Z :=
  match timeWindow with
  | day => SHORT_CACHE_EXPIRY
  | week => DEFAULT_CACHE_EXPIRY
  end.

(** Lines 175-187. *)
Definition getTrendingMovies (timeWindow : option timeWindow) (request : fetchFn)
    : prog jsval :=
  let timeWindow := default week timeWindow in
  let cacheKey := getTrendingMovies_cacheKey timeWindow in
  withCache cacheKey request None (Some (getTrendingMovies_expiry timeWindow)) false.

(** Line 191. *)
Definition getMoviesByProvider_cacheKey (providerId page : Z) (region : string) : string :=
  CACHE_KEYS.PROVIDER_GENRE_MOVIES +:+ "_provider_" +:+ show providerId
  +:+ "_page_" +:+ show page +:+ "_region_" +:+ region.

(** Lines 190-208. *)
Definition getMoviesByProvider (providerId : Z) (page : option Z)
    (region : option string) (request : fetchFn) : prog jsval :=
  let page := default 1 page in
  let region := default getRegion region in
  let cacheKey := getMoviesByProvider_cacheKey providerId page region in
  withCache cacheKey request None (Some DEFAULT_CACHE_EXPIRY) false.

(** Line 212. *)
Definition getMoviesByGenre_cacheKey (genreId page : Z) : string :=
  CACHE_KEYS.PROVIDER_GENRE_MOVIES +:+ "_genre_" +:+ show genreId
  +:+ "_page_" +:+ show page.

(** Lines 211-228. *)
Definition getMoviesByGenre (genreId : Z) (page : option Z) (request : fetchFn)
    : prog jsval :=
  let page := default 1 page in
  let cacheKey := getMoviesByGenre_cacheKey genreId page in
  withCache cacheKey request None (Some DEFAULT_CACHE_EXPIRY) false.

(** Line 232. *)
Definition getMoviesByProviderAndGenre_cacheKey (providerId genreId page : Z)
    (region : string) : string :=
  CACHE_KEYS.PROVIDER_GENRE_MOVIES +:+ "_provider_" +:+ show providerId
  +:+ "_genre_" +:+ show genreId +:+ "_page_" +:+ show page
  +:+ "_region_" +:+ region.

(** Lines 231-250. *)
Definition getMoviesByProviderAndGenre (providerId genreId : Z) (page : option Z)
    (region : option string) (request : fetchFn) : prog jsval :=
  let page := default 1 page in
  let region := default getRegion region in
  let cacheKey := getMoviesByProviderAndGenre_cacheKey providerId genreId page region in
  withCache cacheKey request None (Some DEFAULT_CACHE_EXPIRY) false.

(** Lines 263-270. *)
Definition clearCache : prog unit :=
  await_call (cacheService.clearCache (CACHE_KEYS.TRENDING_MOVIES +:+ "_day") None);;
  await_call (cacheService.clearCache (CACHE_KEYS.TRENDING_MOVIES +:+ "_week") None);;
  console_log "[TMDB] Cache cleared".

End tmdbService.

(** A character of a decimal numeral. *)
Definition numeric (c : Ascii.ascii) : bool :=
  Ascii.eqb c "-"%char
  || ((48 <=? Ascii.nat_of_ascii c)%nat && (Ascii.nat_of_ascii c <=? 57)%nat).

Fixpoint all_numeric (s : string) : bool :=
  match s with
  | EmptyString => true
  | String c s' => numeric c && all_numeric s'
  end.

(** [toLowerCase] and [trim] on ASCII text, for the examples. *)
Definition ascii_lower (c : Ascii.ascii) : Ascii.ascii :=
  let n := Ascii.nat_of_ascii c in
  if ((65 <=? n)%nat && (n <=? 90)%nat)%bool then Ascii.ascii_of_nat (n + 32) else c.

Fixpoint toLowerCase_ascii (s : string) : string :=
  match s with
  | EmptyString => EmptyString
  | String c s' => String (ascii_lower c) (toLowerCase_ascii s')
  end.

Definition ascii_space (c : Ascii.ascii) : bool :=
  let n := Ascii.nat_of_ascii c in
  ((9 <=? n)%nat && (n <=? 13)%nat) || (n =? 32)%nat.

Fixpoint trimStart_ascii (s : string) : string :=
  match s with
  | String c s' => if ascii_space c then trimStart_ascii s' else s
  | EmptyString => EmptyString
  end.

Fixpoint trimEnd_ascii (s : string) : string :=
  match s with
  | EmptyString => EmptyString
  | String c s' =>
      match trimEnd_ascii s' with
      | EmptyString => if ascii_space c then EmptyString else String c EmptyString
      | rest => String c rest
      end
  end.

Definition trim_ascii (s : string) : string := trimEnd_ascii (trimStart_ascii s).

(** The cached readers of [roomService], src/services/roomservice.ts, whose
    closure only queries the backend: it calls nothing of the cache, and is
    represented by the way it settles.  [getUserWatchedMovies] (lines
    550-621) is not among them: its closure calls
    [tmdbService.getMovieDetails], a [withCache] of its own, for the rows
    that lack genres or a runtime. *)
Module roomService.

(** Lines 209-298. *)
Definition getUserRooms (userId : string) (query : fetchFn) : prog jsval :=
  withCache CACHE_KEYS.USER_ROOMS query (Some userId) (Some DEFAULT_CACHE_EXPIRY) false.

(** Lines 301-370. *)
Definition getRoomById (roomId : string) (query : fetchFn) : prog jsval :=
  withCache CACHE_KEYS.ROOM_DETAILS query (Some roomId) (Some DEFAULT_CACHE_EXPIRY) false.

(** Lines 624-659. *)
Definition getWatchedMovies (roomId : string) (query : fetchFn) : prog jsval :=
  withCache CACHE_KEYS.ROOM_WATCHED_MOVIES query (Some roomId)
    (Some DEFAULT_CACHE_EXPIRY) false.

(** Lines 662-701. *)
Definition getRoomMembers (roomId : string) (query : fetchFn) : prog jsval :=
  withCache CACHE_KEYS.ROOM_MEMBERS query (Some roomId) (Some DEFAULT_CACHE_EXPIRY) false.

End roomService.

(** A call made once an earlier call for the same key has registered its
    fetch, and resumed up to the check of line 100. *)
Definition late_call (key : string) (userId : option string) (expiry : option Z)
    (f1 f2 : fetchFn) : list event :=
  [Call (withCache key f1 userId expiry false);
   Resume 0%nat; Resume 0%nat; Resume 0%nat;
   Call (withCache key f2 userId expiry false);
   Resume 1%nat; Resume 1%nat].

(** Two calls for one key made in the same turn, followed by the events
    [es]. *)
Definition same_turn (key : string) (userId : option string) (expiry : option Z)
    (f1 f2 : fetchFn) (es : list event) : list event :=
  Call (withCache key f1 userId expiry false)
  :: Call (withCache key f2 userId expiry false) :: es.

(** The event loop resumes one of these two calls. *)
Definition resumes_a_call (e : event) : bool :=
  match e with
  | Resume 0 | Resume 1 => true
  | _ => false
  end.

(** How many times call [i] is resumed in [es]. *)
Definition resumptions (i : nat) (es : list event) : nat :=
  length (List.filter (fun e => match e with Resume j => Nat.eqb i j | _ => false end) es).

(** A call that misses is resumed three times on its way to [fetchFn]: from
    the read of line 17, from the [await] of line 93, from the [await] of
    line 100.  Of the first four resumptions, two are of each call: both
    calls stand at line 100 before either goes on to line 107. *)
Definition both_at_line_100 (es : list event) : bool :=
  Nat.eqb (resumptions 0 (firstn 4 es)) 2 && Nat.eqb (resumptions 1 (firstn 4 es)) 2.

(** The promise of a fetch that a call is suspended on, if it is. *)
Definition awaited_fetch (p : prog jsval) : option nat :=
  match p with
  | Act (Await (Some q)) _ => Some q
  | _ => None
  end.

(** A state in which a fetch is registered for user 123's rooms. *)
Definition fetch_in_flight (f : fetchFn) : World :=
  MkWorld ∅ (fun _ => false) 1700000000000
          {[ "eiga_user_rooms_user123" := 0%nat ]} [Promise f false] [] [].

(** ** Laws of the lone run *)

Lemma run_bind {A B : Type} (p : prog A) (f : A -> prog B) (w : World) :
  run (bind p f) w =
  match run p w with
  | (inr a, w') => run (f a) w'
  | (inl e, w') => (inl e, w')
  end.
Proof.
  revert w. induction p as [a | e | a k IH]; intros w; simpl; try reflexivity.
  destruct (perform a (while_suspended a w)) as [r w']. apply IH.
Qed.

Lemma run_mbind {A B : Type} (p : prog A) (f : A -> prog B) (w : World) :
  run (p ≫= f) w =
  match run p w with
  | (inr a, w') => run (f a) w'
  | (inl e, w') => (inl e, w')
  end.
Proof. apply run_bind. Qed.

Lemma run_try_catch {A : Type} (p : prog A) (h : error -> prog A) (w : World) :
  run (try_catch p h) w =
  match run p w with
  | (inr a, w') => (inr a, w')
  | (inl e, w') => run (h e) w'
  end.
Proof.
  revert w. induction p as [a | e | a k IH]; intros w; simpl; try reflexivity.
  destruct (perform a (while_suspended a w)) as [r w']. apply IH.
Qed.

Lemma run_try_finally {A : Type} (p : prog A) (f : prog unit) (w : World) :
  run (try_finally p f) w =
  match run p w with
  | (r, w') =>
      match run f w' with
      | (inr _, w'') => (r, w'')
      | (inl e, w'') => (inl e, w'')
      end
  end.
Proof.
  revert w. induction p as [a | e | a k IH]; intros w; simpl.
  - rewrite run_bind. destruct (run f w) as [[e | []] w']; reflexivity.
  - rewrite run_bind. destruct (run f w) as [[e' | []] w']; reflexivity.
  - destruct (perform a (while_suspended a w)) as [r w']. apply IH.
Qed.

Lemma run_await_call {A : Type} (p : prog A) (w : World) :
  run (await_call p) w = run p w.
Proof.
  unfold await_call. rewrite run_try_finally.
  destruct (run p w) as [r w']. reflexivity.
Qed.

(** ** The lone run is a run of the event loop *)

Lemma settle_ready q w :
  ready (Await (Some q)) w = true -> settle q w = w.
Proof.
  unfold ready, settle. intros Hr.
  assert (Heq : alter (fun c => Promise (outcome c) true) q (promises w) = promises w).
  { apply list_eq. intros i. rewrite list_lookup_alter.
    destruct (decide (q = i)) as [<- | Hne]; [| reflexivity].
    destruct (promises w !! q) as [[o b] |]; simpl in *; [subst b |]; reflexivity. }
  rewrite Heq. destruct w; reflexivity.
Qed.

Lemma settle_makes_ready q w c :
  promises w !! q = Some c ->
  ready (Await (Some q)) (settle q w) = true.
Proof.
  intros Hc. unfold ready, settle. simpl.
  rewrite list_lookup_alter, decide_True by reflexivity. rewrite Hc. reflexivity.
Qed.

Lemma exec_settle q w c ts :
  promises w !! q = Some c -> is_settled c = false ->
  exec (Settle q) (MkSystem w ts) = Some (MkSystem (settle q w) ts).
Proof. intros Hc Hs. simpl. rewrite Hc, Hs. reflexivity. Qed.

Lemma lone_schedule_runs (p : prog jsval) (w : World) :
  exec_all (lone_schedule p w) (MkSystem (snd (advance p w)) [fst (advance p w)])
  = Some (MkSystem (snd (run p w)) [final (fst (run p w))]).
Proof.
  revert w. induction p as [v | e | a k IH]; intros w; try reflexivity.
  assert (Hresume : forall w0 r w',
            suspends a = true -> ready a w0 = true -> perform a w0 = (r, w') ->
            exec_all (Resume 0%nat :: lone_schedule (k r) w') (MkSystem w0 [Act a k])
            = Some (MkSystem (snd (run (k r) w')) [final (fst (run (k r) w'))])).
  { intros w0 r w' Hs Hr Hp. simpl. rewrite Hs, Hr, Hp. simpl.
    specialize (IH r w').
    destruct (advance (k r) w') as [p2 w2]. simpl in *. exact IH. }
  cbn [lone_schedule run advance].
  destruct (perform a (while_suspended a w)) as [r w'] eqn:Hp.
  cbn [fst snd].
  destruct (suspends a) eqn:Hs.
  - (* the call is suspended at [a] *)
    cbn [fst snd].
    destruct a as [| o | c | key | key q | key | f | [q |]]; try discriminate;
      cbn [while_suspended] in Hp.
    + apply (Hresume w r w' eq_refl eq_refl Hp).
    + destruct (ready (Await (Some q)) w) eqn:Hr.
      * rewrite (settle_ready q w Hr) in Hp. apply (Hresume w r w' eq_refl Hr Hp).
      * unfold ready in Hr.
        destruct (promises w !! q) as [c |] eqn:Hc; [| discriminate].
        change (exec (Settle q) (MkSystem w [Act (Await (Some q)) k])
                ≫= exec_all (Resume 0%nat :: lone_schedule (k r) w')
                = Some (MkSystem (snd (run (k r) w')) [final (fst (run (k r) w'))])).
        rewrite (exec_settle q w c _ Hc Hr).
        apply (Hresume (settle q w) r w' eq_refl (settle_makes_ready q w c Hc) Hp).
    + apply (Hresume w r w' eq_refl eq_refl Hp).
  - (* [a] does not suspend: the call runs on *)
    assert (Hw : while_suspended a w = w) by (destruct a; try discriminate; reflexivity).
    rewrite Hw in Hp. rewrite Hp.
    assert (Hpre : match a with
                   | Await (Some q) => if ready a w then [] else [Settle q]
                   | _ => []
                   end = []) by (destruct a; try discriminate; reflexivity).
    rewrite Hpre. apply IH.
Qed.

(** A call made on an idle event loop and left alone ends as [run] says. *)
Theorem run_is_a_schedule (p : prog jsval) (w : World) :
  exec_all (Call p :: lone_schedule p w) (MkSystem w [])
  = Some (MkSystem (snd (run p w)) [final (fst (run p w))]).
Proof.
  simpl. pose proof (lone_schedule_runs p w) as H.
  destruct (advance p w) as [p1 w1]. exact H.
Qed.

(** ** What the primitives do *)

Lemma run_loadFromCache key userId w :
  exists w',
    run (loadFromCache key userId) w
      = (inr (default null (fresh_payload w (cacheKey key userId))), w') /\
    store w' = store w /\ same_memory w w' /\
    calls w' = calls w ++ [GetItem (cacheKey key userId)].
Proof.
  unfold loadFromCache, fresh_payload, same_memory.
  rewrite run_mbind, run_try_catch. simpl.
  unfold AsyncStorage_call. simpl.
  destruct (faulty w (GetItem (cacheKey key userId))); simpl.
  { eexists. split; [reflexivity | repeat split]. }
  destruct (store w !! cacheKey key userId) as [[| | data timestamp expiry] |];
    simpl; try (eexists; split; [reflexivity | repeat split]).
  destruct (less _ _); simpl; eexists; (split; [reflexivity | repeat split]).
Qed.

Lemma run_saveToCache key data userId expiry w :
  let ck := cacheKey key userId in
  let entry := JSON_stringify data (clock w) (default DEFAULT_CACHE_EXPIRY expiry) in
  let c := SetItem ck entry in
  exists w',
    run (saveToCache key data userId expiry) w = (inr tt, w') /\
    store w' = (if faulty w c then store w else <[ck:=entry]> (store w)) /\
    same_memory w w' /\
    calls w' = calls w ++ [c] /\
    console w' = console w ++
      [if faulty w c
       then Error ("[CACHE] Error caching " +:+ key +:+ " data:") (StorageError c)
       else Log ("[CACHE] " +:+ key +:+ " data cached successfully")].
Proof.
  intros ck entry c. unfold saveToCache, same_memory.
  rewrite run_try_catch. simpl. unfold AsyncStorage_call. simpl.
  fold ck. fold entry. fold c.
  destruct (faulty w c); simpl; eexists; (split; [reflexivity | repeat split]).
Qed.

Lemma run_clearCache key userId w :
  let c := RemoveItem (cacheKey key userId) in
  exists w',
    run (clearCache key userId) w = (inr tt, w') /\
    store w' = (if faulty w c then store w else delete (cacheKey key userId) (store w)) /\
    same_memory w w' /\
    calls w' = calls w ++ [c].
Proof.
  intros c. unfold clearCache, same_memory.
  rewrite run_try_catch. simpl. unfold AsyncStorage_call. simpl. fold c.
  destruct (faulty w c); simpl; eexists; (split; [reflexivity | repeat split]).
Qed.

(** What [loadFromCache] finds depends on the store, the faults and the clock
    only. *)
Lemma fresh_payload_ext w w' ck :
  store w' = store w -> faulty w' = faulty w -> clock w' = clock w ->
  fresh_payload w' ck = fresh_payload w ck.
Proof. unfold fresh_payload. intros -> -> ->. reflexivity. Qed.

Arguments loadFromCache : simpl never.
Arguments saveToCache : simpl never.
Arguments clearCache : simpl never.
Arguments await_call : simpl never.

(** The promise a lone caller has just obtained from [fetchFn] settles while
    the caller awaits it. *)
Lemma settle_last (ps : list promise) (f : fetchFn) :
  alter (fun c => Promise (outcome c) true) (length ps) (ps ++ [Promise f false])
  = ps ++ [Promise f true].
Proof.
  induction ps as [| c ps IH]; simpl; [reflexivity |]. f_equal. exact IH.
Qed.

Lemma lookup_last (ps : list promise) (c : promise) :
  (ps ++ [c]) !! length ps = Some c.
Proof. induction ps as [| c' ps IH]; simpl; [reflexivity | exact IH]. Qed.

(** Lines 99-117 when no request is registered for the key: [fetchFn] is
    invoked once, its result is saved and returned, or its failure thrown;
    the registration is gone at the end. *)
Lemma run_withCache_pending key f userId expiry w :
  pendingRequests w !! cacheKey key userId = None ->
  exists w',
    run (withCache_pending key f userId expiry) w = (settlement_of f, w') /\
    after_fetch f (cacheKey key userId) expiry w w'.
Proof.
  intros Hnone. unfold withCache_pending, after_fetch.
  set (ck := cacheKey key userId) in *.
  rewrite run_mbind. simpl. rewrite Hnone. simpl.
  rewrite lookup_insert_eq. simpl.
  unfold settle. simpl. rewrite settle_last, lookup_last. simpl.
  assert (Hdel : delete ck (<[ck:=length (promises w)]> (pendingRequests w))
                 = pendingRequests w).
  { rewrite delete_insert_eq. apply delete_id. exact Hnone. }
  destruct f as [v | e]; simpl.
  - unfold AsyncStorage_call. simpl. fold ck.
    destruct (faulty w (SetItem ck (JSON_stringify v (clock w) expiry)));
      simpl; eexists; (split; [reflexivity |]); simpl; rewrite Hdel;
      repeat split.
  - eexists; (split; [reflexivity |]); simpl; rewrite Hdel; repeat split.
Qed.

(** [withCache], one decision at a time. *)
Lemma run_withCache key f userId expiry forceRefresh w :
  run (withCache key f userId expiry forceRefresh) w =
  let rest := withCache_pending key f userId (default DEFAULT_CACHE_EXPIRY expiry) in
  if forceRefresh then
    match run (clearCache key userId) w with
    | (inr _, w1) => run rest w1
    | (inl e, w1) => (inl e, w1)
    end
  else
    match run (loadFromCache key userId) w with
    | (inr cachedData, w1) =>
        if not_null cachedData then (inr cachedData, w1) else run rest w1
    | (inl e, w1) => (inl e, w1)
    end.
Proof.
  unfold withCache. rewrite run_mbind. destruct forceRefresh.
  - rewrite run_mbind, run_await_call.
    destruct (run (clearCache key userId) w) as [[e | []] w1]; reflexivity.
  - rewrite run_mbind, run_await_call.
    destruct (run (loadFromCache key userId) w) as [[e | v] w1]; [reflexivity |].
    destruct (not_null v); reflexivity.
Qed.

Lemma run_withCache_hit key f userId expiry w data :
  fresh_payload w (cacheKey key userId) = Some data ->
  not_null data = true ->
  exists w',
    run (withCache key f userId expiry false) w = (inr data, w') /\
    store w' = store w /\ same_memory w w' /\
    calls w' = calls w ++ [GetItem (cacheKey key userId)].
Proof.
  intros Hfresh Hnn. rewrite run_withCache.
  destruct (run_loadFromCache key userId w) as (w1 & -> & Hst & Hmem & Hcalls).
  rewrite Hfresh. simpl. rewrite Hnn. exists w1. auto.
Qed.

Lemma run_withCache_miss key f userId expiry w :
  no_answer w (cacheKey key userId) ->
  pendingRequests w !! cacheKey key userId = None ->
  exists w1 w',
    run (withCache key f userId expiry false) w = (settlement_of f, w') /\
    store w1 = store w /\ same_memory w w1 /\
    calls w1 = calls w ++ [GetItem (cacheKey key userId)] /\
    after_fetch f (cacheKey key userId) (default DEFAULT_CACHE_EXPIRY expiry) w1 w'.
Proof.
  intros Hmiss Hnone. rewrite run_withCache.
  destruct (run_loadFromCache key userId w) as (w1 & -> & Hst & Hmem & Hcalls).
  unfold no_answer in Hmiss. simpl. rewrite Hmiss.
  destruct Hmem as (Hf & Hc & Hp & Hps).
  destruct (run_withCache_pending key f userId (default DEFAULT_CACHE_EXPIRY expiry) w1)
    as (w' & Hrun & Hafter).
  { rewrite Hp. exact Hnone. }
  exists w1, w'. unfold same_memory. auto 10.
Qed.

Lemma run_withCache_force key f userId expiry w :
  pendingRequests w !! cacheKey key userId = None ->
  exists w1 w',
    run (withCache key f userId expiry true) w = (settlement_of f, w') /\
    store w1 = (if faulty w (RemoveItem (cacheKey key userId)) then store w
                else delete (cacheKey key userId) (store w)) /\
    same_memory w w1 /\
    calls w1 = calls w ++ [RemoveItem (cacheKey key userId)] /\
    after_fetch f (cacheKey key userId) (default DEFAULT_CACHE_EXPIRY expiry) w1 w'.
Proof.
  intros Hnone. rewrite run_withCache.
  destruct (run_clearCache key userId w) as (w1 & -> & Hst & Hmem & Hcalls).
  simpl. destruct Hmem as (Hf & Hc & Hp & Hps).
  destruct (run_withCache_pending key f userId (default DEFAULT_CACHE_EXPIRY expiry) w1)
    as (w' & Hrun & Hafter).
  { rewrite Hp. exact Hnone. }
  exists w1, w'. unfold same_memory. auto 10.
Qed.

(** ** Validity of an entry, in the words of the specification *)

Lemma fresh_payload_valid w ck payload :
  fresh_payload w ck = Some payload <-> valid_entry w ck payload.
Proof.
  unfold fresh_payload. split.
  - destruct (faulty w (GetItem ck)) eqn:Hf; [discriminate |].
    destruct (store w !! ck) as [[| | data [| t] expiry] |] eqn:Hs;
      try discriminate. simpl.
    destruct (default (Num DEFAULT_CACHE_EXPIRY) expiry) as [| ttl] eqn:He;
      simpl; try discriminate.
    destruct (Z.ltb_spec (clock w - t) ttl); [| discriminate].
    intros [= <-]. econstructor; eauto.
  - intros [t ttl expiry Hf Hs He Hlt]. rewrite Hf, Hs. simpl. rewrite He. simpl.
    destruct (Z.ltb_spec (clock w - t) ttl); [reflexivity | lia].
Qed.

(** What [saveToCache] has just written is valid for [ttl] milliseconds. *)
Lemma fresh_after_save key data userId expiry d w w1 :
  healthy w ->
  run (saveToCache key data userId expiry) w = (inr tt, w1) ->
  0 <= d < default DEFAULT_CACHE_EXPIRY expiry ->
  fresh_payload (tick d w1) (cacheKey key userId) = Some (JSON_roundtrip data).
Proof.
  intros Hh Hrun Hd.
  destruct (run_saveToCache key data userId expiry w)
    as (w1' & Hrun' & Hst & (Hf & Hc & _) & _).
  rewrite Hrun in Hrun'. injection Hrun' as <-.
  rewrite Hh in Hst.
  apply fresh_payload_valid.
  apply (ValidEntry _ _ _ (clock w) (default DEFAULT_CACHE_EXPIRY expiry)
           (Some (Num (default DEFAULT_CACHE_EXPIRY expiry)))); simpl.
  - rewrite Hf. apply Hh.
  - rewrite Hst. apply lookup_insert_eq.
  - reflexivity.
  - rewrite Hc. lia.
Qed.

Lemma not_null_neq (v : jsval) : v <> null -> not_null v = true.
Proof. intros Hv. destruct v; try reflexivity. destruct (Hv eq_refl). Qed.

(** A miss, read off the store. *)
Lemma miss_no_answer w key userId :
  miss w key userId <-> no_answer w (cacheKey key userId).
Proof.
  unfold miss, no_answer.
  destruct (run_loadFromCache key userId w) as (w' & -> & _). simpl.
  destruct (fresh_payload w (cacheKey key userId)) as [[] |]; simpl;
    split; (reflexivity || discriminate).
Qed.

(** ** C1: single flight *)

(** C1, on the code.  Two concurrent [withCache] calls for one key on an
    empty cache: both are suspended by the [await] of line 100 after reading
    an empty registry and before either has registered; the first, resumed,
    invokes [fetchFn] and registers its promise; the second, resumed while
    that promise is registered and unsettled, invokes [fetchFn] again; the
    two callers resolve to different payloads. *)
Theorem concurrent_calls_fetch_twice :
  option_map (fun s => (map suspended_at (tasks s),
                        pendingRequests (world s) !! "eiga_user_rooms_user123",
                        invocations (world s)))
             (exec_all both_check idle)
  = Some ([Some (Await None); Some (Await None)], None, 0%nat) /\
  option_map (fun s => (pendingRequests (world s) !! "eiga_user_rooms_user123",
                        promises (world s)))
             (exec_all first_registers idle)
  = Some (Some 0%nat, [Promise (nth_fetch 1) false]) /\
  option_map (fun s => (map suspended_at (tasks s), invocations (world s)))
             (exec_all both_fetch idle)
  = Some ([Some (Await (Some 0%nat)); Some (Await (Some 1%nat))], 2%nat) /\
  option_map (fun s => (settlement s 0, settlement s 1, invocations (world s)))
             (exec_all both_finish idle)
  = Some (Some (Fulfilled (JNum 1)), Some (Fulfilled (JNum 2)), 2%nat).
Proof. repeat split; vm_compute; reflexivity. Qed.

(** Resume both racing calls up to their fetch, with what is known of the
    store. *)
Ltac resume_both Hf Hs Hl Hnone Hfin :=
  unfold AsyncStorage_call; simpl; try rewrite Hf; try rewrite Hs; simpl;
  try rewrite Hl; simpl; try rewrite Hnone; simpl;
  rewrite !lookup_insert_eq; simpl; rewrite Hfin; reflexivity.

(** Whenever the cache does not answer for a key and nothing is registered
    for it, two calls made in the same turn both invoke their [fetchFn]: the
    state ends with two promises more, one awaited by each caller. *)
Lemma racing_calls_fetch_twice key userId expiry f1 f2 w :
  miss w key userId ->
  pendingRequests w !! cacheKey key userId = None ->
  option_map (fun s => (promises (world s), map suspended_at (tasks s)))
             (exec_all (race key userId expiry f1 f2) (MkSystem w []))
  = Some (promises w ++ [Promise f1 false; Promise f2 false],
          [Some (Await (Some (length (promises w))));
           Some (Await (Some (S (length (promises w)))))]).
Proof.
  intros Hmiss Hnone. apply miss_no_answer in Hmiss.
  unfold no_answer, fresh_payload in Hmiss.
  unfold race, withCache, withCache_pending, loadFromCache, await_call.
  set (ck := cacheKey key userId) in *.
  assert (Hfin : forall ps : list promise,
            ((ps ++ [Promise f1 false]) ++ [Promise f2 false],
             [Some (Await (Some (length ps)));
              Some (Await (Some (length (ps ++ [Promise f1 false]))))])
            = (ps ++ [Promise f1 false; Promise f2 false],
               [Some (Await (Some (length ps))); Some (Await (Some (S (length ps))))])).
  { intros ps. rewrite <- app_assoc, length_app. simpl.
    rewrite Nat.add_1_r. reflexivity. }
  simpl. unfold AsyncStorage_call. simpl.
  destruct (faulty w (GetItem ck)) eqn:Hf; simpl.
  - resume_both Hf Hf Hf Hnone Hfin.
  - destruct (store w !! ck) as [[| | data [| t] [[| ttl] |]] |] eqn:Hs; simpl in *;
      try (resume_both Hf Hs Hs Hnone Hfin).
    + destruct (clock w - t <? ttl) eqn:Hl; simpl in *.
      * destruct data; try discriminate. simpl.
        resume_both Hf Hs Hl Hnone Hfin.
      * resume_both Hf Hs Hl Hnone Hfin.
    + destruct (clock w - t <? DEFAULT_CACHE_EXPIRY) eqn:Hl; simpl in *.
      * destruct data; try discriminate. simpl.
        resume_both Hf Hs Hl Hnone Hfin.
      * resume_both Hf Hs Hl Hnone Hfin.
Qed.

(** The second call made once the first has registered its fetch, and resumed
    when that fetch has settled with a truthy payload: it attaches. *)
Example attached_call_shares_fetch :
  option_map (fun s => (settlement s 1, invocations (world s)))
             (exec_all (second_attaches (nth_fetch 1)) idle)
  = Some (Some (Fulfilled (JNum 1)), 1%nat).
Proof. vm_compute. reflexivity. Qed.

(** When the payload is falsy, the attached call takes it for "nothing
    pending" at line 100 and invokes its own [fetchFn]. *)
Example attached_call_refetches_falsy :
  option_map (fun s => (map suspended_at (tasks s), invocations (world s)))
             (exec_all (removelast (second_attaches (Fulfilled (JNum 0)))) idle)
  = Some ([Some (Storage (SetItem "eiga_user_rooms_user123"
                            (Envelope (JNum 0) (Num 1700000000000)
                               (Some (Num 900000)))));
           Some (Await (Some 1%nat))], 2%nat).
Proof. vm_compute. reflexivity. Qed.

(** ** C2: a cache hit avoids the fetch *)

(** What a hit returns, for any payload.  [d] ms after [saveToCache] stored
    [p], while the entry is unexpired, [withCache] resolves to what the JSON
    round trip leaves of [p] and does not invoke [fetchFn], unless that is
    [null]. *)
Lemma cache_hit_resolves_to_roundtrip key userId p ttl d f expiry w :
  healthy w ->
  JSON_roundtrip p <> null ->
  0 <= d < default DEFAULT_CACHE_EXPIRY ttl ->
  let w1 := tick d (snd (run (saveToCache key p userId ttl) w)) in
  exists w2,
    run (withCache key f userId expiry false) w1 = (inr (JSON_roundtrip p), w2) /\
    promises w2 = promises w1 /\
    store w2 = store w1.
Proof.
  intros Hh Hp Hd w1.
  destruct (run_saveToCache key p userId ttl w) as (ws & Hrun & _).
  assert (Hfresh : fresh_payload w1 (cacheKey key userId) = Some (JSON_roundtrip p)).
  { subst w1. rewrite Hrun. simpl. eapply fresh_after_save; eauto. }
  destruct (run_withCache_hit key f userId expiry w1 _ Hfresh)
    as (w2 & Hrun2 & Hst & (_ & _ & _ & Hps) & _).
  { apply not_null_neq. exact Hp. }
  exists w2. auto.
Qed.

(** C2, for the payloads that the JSON round trip gives back unchanged, other
    than [null].  For every key and optional scope, every such payload [p]
    that [saveToCache] has stored, and every [d] shorter than the ttl it was
    stored with: [withCache] called [d] ms later with [forceRefresh = false]
    resolves to [p], and [fetchFn] is not invoked. *)
Theorem cache_hit_avoids_fetch key userId p ttl d f expiry w :
  healthy w ->
  JSON_stable p ->
  p <> null ->
  0 <= d < default DEFAULT_CACHE_EXPIRY ttl ->
  let w1 := tick d (snd (run (saveToCache key p userId ttl) w)) in
  exists w2,
    run (withCache key f userId expiry false) w1 = (inr p, w2) /\
    promises w2 = promises w1 /\
    store w2 = store w1.
Proof.
  intros Hh Hstable Hp Hd w1.
  destruct (run_saveToCache key p userId ttl w) as (ws & Hrun & _).
  assert (Hfresh : fresh_payload w1 (cacheKey key userId) = Some p).
  { subst w1. rewrite Hrun. simpl. unfold JSON_stable in Hstable.
    rewrite <- Hstable. eapply fresh_after_save; eauto. }
  destruct (run_withCache_hit key f userId expiry w1 p Hfresh)
    as (w2 & Hrun2 & Hst & (_ & _ & _ & Hps) & _).
  { apply not_null_neq. exact Hp. }
  exists w2. auto.
Qed.

Lemma cache_hit_avoids_fetch_witness :
  let w1 := tick 60000 (snd (run (saveToCache "eiga_user_rooms"
                                    (JArr [JObj [("id", JStr "r1")]])
                                    (Some "user123") (Some 900000))
                                 (fresh_world ∅ 1700000000000))) in
  exists w2,
    run (withCache "eiga_user_rooms" (Fulfilled (JArr [JObj [("id", JStr "r2")]]))
           (Some "user123") (Some 900000) false) w1
      = (inr (JArr [JObj [("id", JStr "r1")]]), w2) /\
    promises w2 = promises w1 /\
    store w2 = store w1.
Proof.
  apply (cache_hit_avoids_fetch "eiga_user_rooms" (Some "user123")
           (JArr [JObj [("id", JStr "r1")]]) (Some 900000) 60000).
  - intros c. reflexivity.
  - reflexivity.
  - discriminate.
  - simpl. lia.
Defined.

(** C2 does not extend to every payload [saveToCache] accepts: it fails at the
    payload [null]: the entry is stored and unexpired, and [withCache] still
    invokes [fetchFn] and resolves to what it fetched. *)
Lemma cache_hit_fails_on_null :
  ~ (forall key userId p ttl d f expiry w,
        healthy w ->
        0 <= d < default DEFAULT_CACHE_EXPIRY ttl ->
        let w1 := tick d (snd (run (saveToCache key p userId ttl) w)) in
        exists w2,
          run (withCache key f userId expiry false) w1 = (inr p, w2) /\
          promises w2 = promises w1 /\
          store w2 = store w1).
Proof.
  intros H.
  destruct (H "eiga_user_plan"%string (Some "user123"%string) null None 0
              (Fulfilled (JStr "free")) None (fresh_world ∅ 1700000000000))
    as (w2 & Hrun & _).
  - intros c. reflexivity.
  - simpl. unfold DEFAULT_CACHE_EXPIRY. lia.
  - apply (f_equal fst) in Hrun. vm_compute in Hrun. discriminate.
Qed.

(** Nor does it hold for the payloads that the JSON round trip changes.  A
    stored [NaN] (or infinity, or invalid date) is read back as [null]:
    [withCache] invokes [fetchFn].  A list of rooms whose [createdAt] is a
    [Date], as [getUserRooms] fetches them, is served from the cache with the
    date as a string. *)
Lemma cache_hit_fails_on_unstable_payloads :
  let w := fresh_world ∅ 1700000000000 in
  let rooms createdAt := JArr [JObj [("id", JStr "r1"); ("createdAt", createdAt)]] in
  let after p := tick 60000 (snd (run (saveToCache "eiga_user_rooms" p (Some "user123")
                                         None) w)) in
  let withCache_again p :=
    run (withCache "eiga_user_rooms" (Fulfilled (JStr "fetched")) (Some "user123")
           None false) (after p) in
  (fst (withCache_again JNaN) = inr (JStr "fetched") /\
   invocations (snd (withCache_again JNaN)) = 1%nat) /\
  (fst (withCache_again (rooms (JDate (Some "2024-05-01T10:00:00.000Z"))))
   = inr (rooms (JStr "2024-05-01T10:00:00.000Z")) /\
   invocations (snd (withCache_again (rooms (JDate (Some "2024-05-01T10:00:00.000Z")))))
   = 0%nat).
Proof. vm_compute. repeat split. Qed.

(** ** C3: the scope sweep *)

Lemma lookup_foldr_delete (m : gmap string stored) (ks : list string) (k : string) :
  foldr delete m ks !! k = if decide (k ∈ ks) then None else m !! k.
Proof.
  induction ks as [| k' ks IH]; simpl.
  - reflexivity.
  - destruct (decide (k = k')) as [-> | Hne].
    + rewrite lookup_delete_eq. rewrite decide_True by left. reflexivity.
    + rewrite lookup_delete_ne by auto. rewrite IH.
      destruct (decide (k ∈ ks)) as [Hin | Hnin].
      * rewrite decide_True by (right; exact Hin). reflexivity.
      * rewrite decide_False; [reflexivity |].
        intros Hin. apply elem_of_cons in Hin as [? | ?]; auto.
Qed.

(** What the sweep does on a store that answers: it removes the keys that
    contain [_userId] anywhere, and only those. *)
Lemma clearUserCache_sweeps_by_inclusion userId w k :
  healthy w ->
  store (snd (run (clearUserCache userId) w)) !! k
  = if includes k ("_" +:+ userId) then None else store w !! k.
Proof.
  intros Hh. unfold clearUserCache. rewrite run_try_catch. simpl.
  unfold AsyncStorage_call. simpl. rewrite Hh. simpl.
  set (keys := map fst (map_to_list (store w))).
  set (userKeys := List.filter (fun key => includes key ("_" +:+ userId)) keys).
  assert (Hin : forall x, x ∈ userKeys <->
                  includes x ("_" +:+ userId) = true /\ is_Some (store w !! x)).
  { intros x. unfold userKeys. rewrite list_elem_of_In, filter_In, <- list_elem_of_In.
    unfold keys. rewrite list_elem_of_fmap. split.
    - intros [[[k0 v0] [-> Hel]] Hincl]. split; [exact Hincl |].
      apply elem_of_map_to_list in Hel. simpl. eauto.
    - intros [Hincl [v0 Hv0]]. split; [| exact Hincl].
      exists (x, v0). split; [reflexivity |]. apply elem_of_map_to_list. exact Hv0. }
  destruct (0 <? length userKeys)%nat eqn:Hlen; simpl.
  - unfold AsyncStorage_call. simpl. rewrite Hh. simpl.
    rewrite lookup_foldr_delete.
    destruct (decide (k ∈ userKeys)) as [Hk | Hk].
    + apply Hin in Hk as [-> _]. reflexivity.
    + destruct (includes k ("_" +:+ userId)) eqn:Hincl; [| reflexivity].
      destruct (store w !! k) as [v0 |] eqn:Hs; [| reflexivity].
      destruct Hk. apply Hin. split; [exact Hincl | rewrite Hs; eauto].
  - destruct (includes k ("_" +:+ userId)) eqn:Hincl; [| reflexivity].
    destruct (store w !! k) as [v0 |] eqn:Hs; [| reflexivity].
    assert (Hk : k ∈ userKeys) by (apply Hin; split; [exact Hincl | rewrite Hs; eauto]).
    destruct userKeys as [| x xs]; [inversion Hk | discriminate].
Qed.

(** C3, on the code.  Sweeping the scope [42] also removes the entry of user
    421 and the details of movie 420, whose composite keys do not end in
    [_42]: the filter at line 68 is [includes], not a suffix match. *)
Theorem clearUserCache_removes_beyond_suffix :
  let w' := snd (run (clearUserCache "42") shared_device) in
  endsWith "eiga_user_rooms_421" "_42" = false /\
  endsWith "eiga_movie_details_420" "_42" = false /\
  is_Some (store shared_device !! "eiga_user_rooms_421") /\
  is_Some (store shared_device !! "eiga_movie_details_420") /\
  store w' !! "eiga_user_rooms_42" = None /\
  store w' !! "eiga_user_rooms_421" = None /\
  store w' !! "eiga_movie_details_420" = None.
Proof.
  assert (Hh : healthy shared_device) by (intros c; reflexivity).
  cbv zeta. rewrite !clearUserCache_sweeps_by_inclusion by exact Hh.
  repeat split; try reflexivity; eexists; reflexivity.
Qed.

(** ** C4: a failed fetch is not cached and does not block a retry *)

Lemma no_answer_ext w w' ck :
  store w' = store w -> faulty w' = faulty w -> clock w' = clock w ->
  no_answer w ck -> no_answer w' ck.
Proof.
  unfold no_answer. intros Hs Hf Hc. rewrite (fresh_payload_ext w w' ck Hs Hf Hc). auto.
Qed.

(** C4.  When the cache does not answer for the key and no request is
    registered for it, a [fetchFn] that rejects with [e] is invoked once and
    [withCache] rejects with [e]; AsyncStorage was only read, the store is as
    before, and no registration is left for the key; the next [withCache] for
    the key, with a [fetchFn] that succeeds, invokes it and resolves to its
    payload. *)
Theorem failed_fetch_not_cached key userId expiry expiry' forceRefresh' e v w :
  let ck := cacheKey key userId in
  miss w key userId ->
  pendingRequests w !! ck = None ->
  exists w1,
    run (withCache key (Rejected e) userId expiry false) w = (inl e, w1) /\
    promises w1 = promises w ++ [Promise (Rejected e) true] /\
    store w1 = store w /\
    calls w1 = calls w ++ [GetItem ck] /\
    pendingRequests w1 !! ck = None /\
    exists w2,
      run (withCache key (Fulfilled v) userId expiry' forceRefresh') w1 = (inr v, w2) /\
      promises w2 = promises w1 ++ [Promise (Fulfilled v) true].
Proof.
  intros ck Hmiss Hnone. apply miss_no_answer in Hmiss. fold ck in Hmiss.
  destruct (run_withCache_miss key (Rejected e) userId expiry w Hmiss Hnone)
    as (w0 & w1 & Hrun & Hst0 & (Hf0 & Hc0 & Hp0 & Hps0) & Hcalls0 & Hafter).
  destruct Hafter as (Hps & Hp & Hf & Hc & Hst & Hcalls).
  assert (Hnone1 : pendingRequests w1 !! ck = None).
  { rewrite Hp, Hp0. exact Hnone. }
  exists w1. split; [exact Hrun |]. split; [rewrite Hps, Hps0; reflexivity |].
  split; [rewrite Hst; exact Hst0 |].
  split; [rewrite Hcalls; exact Hcalls0 |].
  split; [exact Hnone1 |].
  destruct forceRefresh'.
  - destruct (run_withCache_force key (Fulfilled v) userId expiry' w1 Hnone1)
      as (w1' & w2 & Hrun2 & _ & (_ & _ & _ & Hps1') & _ & Hafter2).
    destruct Hafter2 as (Hps2 & _).
    exists w2. split; [exact Hrun2 |]. rewrite Hps2, Hps1'. reflexivity.
  - assert (Hmiss1 : no_answer w1 ck).
    { apply (no_answer_ext w); [congruence | congruence | congruence | exact Hmiss]. }
    destruct (run_withCache_miss key (Fulfilled v) userId expiry' w1 Hmiss1 Hnone1)
      as (w1' & w2 & Hrun2 & _ & (_ & _ & _ & Hps1') & _ & Hafter2).
    destruct Hafter2 as (Hps2 & _).
    exists w2. split; [exact Hrun2 |]. rewrite Hps2, Hps1'. reflexivity.
Qed.

Lemma failed_fetch_not_cached_witness :
  let w := fresh_world ∅ 1700000000000 in
  let e := Exception (JStr "network request failed") in
  exists w1,
    run (withCache "eiga_user_rooms" (Rejected e) (Some "user123") None false) w
      = (inl e, w1) /\
    promises w1 = promises w ++ [Promise (Rejected e) true] /\
    store w1 = store w /\
    calls w1 = calls w ++ [GetItem "eiga_user_rooms_user123"] /\
    pendingRequests w1 !! "eiga_user_rooms_user123" = None /\
    exists w2,
      run (withCache "eiga_user_rooms" (Fulfilled (JStr "r1"))
             (Some "user123") None false) w1
        = (inr (JStr "r1"), w2) /\
      promises w2 = promises w1 ++ [Promise (Fulfilled (JStr "r1")) true].
Proof.
  intros w e.
  apply (failed_fetch_not_cached "eiga_user_rooms" (Some "user123") None None false e
           (JStr "r1") w).
  - reflexivity.
  - reflexivity.
Defined.

(** ** C5: expiry triggers a refetch *)

(** C5.  When the entry stored under the key is at least as old as its ttl,
    no request is registered for the key and the store accepts the write,
    [withCache] invokes [fetchFn] exactly once, resolves to the value it
    fetched, and that value is the new entry of the key. *)
Theorem expiry_triggers_refetch key userId expiry w data storedAt stored_expiry ttl v :
  let ck := cacheKey key userId in
  let entry := JSON_stringify v (clock w) (default DEFAULT_CACHE_EXPIRY expiry) in
  store w !! ck = Some (Envelope data (Num storedAt) stored_expiry) ->
  default (Num DEFAULT_CACHE_EXPIRY) stored_expiry = Num ttl ->
  clock w - storedAt >= ttl ->
  pendingRequests w !! ck = None ->
  faulty w (SetItem ck entry) = false ->
  exists w',
    run (withCache key (Fulfilled v) userId expiry false) w = (inr v, w') /\
    promises w' = promises w ++ [Promise (Fulfilled v) true] /\
    store w' !! ck = Some entry.
Proof.
  intros ck entry Hs Httl Hexp Hnone Hset.
  assert (Hmiss : no_answer w ck).
  { unfold no_answer, fresh_payload. rewrite Hs. simpl. rewrite Httl. simpl.
    destruct (faulty w (GetItem ck)); [reflexivity |].
    destruct (Z.ltb_spec (clock w - storedAt) ttl); [lia | reflexivity]. }
  destruct (run_withCache_miss key (Fulfilled v) userId expiry w Hmiss Hnone)
    as (w1 & w' & Hrun & Hst1 & (Hf1 & Hc1 & Hp1 & Hps1) & _ & Hafter).
  destruct Hafter as (Hps & _ & _ & _ & Hst & _).
  exists w'. split; [exact Hrun |]. split.
  - rewrite Hps, Hps1. reflexivity.
  - rewrite Hst, Hc1, Hf1. fold ck. fold entry. rewrite Hset.
    apply lookup_insert_eq.
Qed.

Lemma expiry_triggers_refetch_witness :
  let w := fresh_world
             {[ "eiga_user_rooms_user123" :=
                  Envelope (JStr "old") (Num 1700000000000) (Some (Num 900000)) ]}
             1700000900000 in
  exists w',
    run (withCache "eiga_user_rooms" (Fulfilled (JStr "new"))
           (Some "user123") None false) w
      = (inr (JStr "new"), w') /\
    promises w' = promises w ++ [Promise (Fulfilled (JStr "new")) true] /\
    store w' !! "eiga_user_rooms_user123"
      = Some (Envelope (JStr "new") (Num 1700000900000) (Some (Num 900000))).
Proof.
  intros w.
  apply (expiry_triggers_refetch "eiga_user_rooms" (Some "user123") None w
           (JStr "old") 1700000000000 (Some (Num 900000)) 900000
           (JStr "new")).
  - reflexivity.
  - reflexivity.
  - simpl. lia.
  - reflexivity.
  - reflexivity.
Defined.

(** ** C6: scope isolation *)

Lemma append_cancel_l (s a b : string) : s +:+ a = s +:+ b -> a = b.
Proof.
  induction s as [| c s IH]; simpl; [auto |]. intros [= H]. auto.
Qed.







(** ** C7: loadFromCache is total and validity-exact *)

(** C7.  Whatever the store holds and whether or not it can be read,
    [loadFromCache] does not throw: it resolves, to the stored payload when
    the entry under the composite key is valid ([now - storedAt < ttl]), and
    to [null] in every other case; the store is left as it was. *)
Theorem loadFromCache_total_exact key userId w :
  exists v w',
    run (loadFromCache key userId) w = (inr v, w') /\
    store w' = store w /\
    (forall payload, valid_entry w (cacheKey key userId) payload -> v = payload) /\
    ((forall payload, ~ valid_entry w (cacheKey key userId) payload) -> v = null).
Proof.
  destruct (run_loadFromCache key userId w) as (w' & Hrun & Hst & _).
  eexists. exists w'. split; [exact Hrun |]. split; [exact Hst |]. split.
  - intros payload Hv. apply fresh_payload_valid in Hv. rewrite Hv. reflexivity.
  - intros Hno.
    destruct (fresh_payload w (cacheKey key userId)) as [payload |] eqn:Hf;
      [| reflexivity].
    apply fresh_payload_valid in Hf. destruct (Hno payload Hf).
Qed.

Lemma loadFromCache_total_exact_witness :
  let w := fresh_world
             {[ "eiga_user_rooms_user123" :=
                  Envelope (JNum 7) (Num 1700000000000) None ]}
             1700000060000 in
  fst (run (loadFromCache "eiga_user_rooms" (Some "user123")) w) = inr (JNum 7) /\
  fst (run (loadFromCache "eiga_user_plan" (Some "user123")) w) = inr null.
Proof.
  intros w. split.
  - destruct (loadFromCache_total_exact "eiga_user_rooms" (Some "user123") w)
      as (v & w' & Hrun & _ & Hvalid & _).
    rewrite Hrun. simpl. f_equal. apply Hvalid.
    apply (ValidEntry _ _ _ 1700000000000 DEFAULT_CACHE_EXPIRY None);
      [reflexivity | reflexivity | reflexivity |].
    simpl. unfold DEFAULT_CACHE_EXPIRY. lia.
  - destruct (loadFromCache_total_exact "eiga_user_plan" (Some "user123") w)
      as (v & w' & Hrun & _ & _ & Hother).
    rewrite Hrun. simpl. f_equal. apply Hother.
    intros payload [t ttl expiry _ Hs _ _]. vm_compute in Hs. discriminate.
Defined.

(** ** C8: forceRefresh bypasses the cache *)

(** C8.  With a valid entry stored under the key, no request registered for
    it and a store that accepts the removal and the write, [withCache] called
    with [forceRefresh = true] removes the entry, does not read the cache (its
    AsyncStorage calls are the removal and the write, in that order), invokes
    [fetchFn] once, resolves to what it fetched and stores it as the entry of
    the key; had the fetch failed, the entry would be gone. *)
Theorem forceRefresh_bypasses_cache key userId expiry w data v :
  let ck := cacheKey key userId in
  let entry := JSON_stringify v (clock w) (default DEFAULT_CACHE_EXPIRY expiry) in
  valid_entry w ck data ->
  pendingRequests w !! ck = None ->
  faulty w (RemoveItem ck) = false ->
  faulty w (SetItem ck entry) = false ->
  (exists w',
     run (withCache key (Fulfilled v) userId expiry true) w = (inr v, w') /\
     promises w' = promises w ++ [Promise (Fulfilled v) true] /\
     calls w' = calls w ++ [RemoveItem ck; SetItem ck entry] /\
     store w' = <[ck:=entry]> (delete ck (store w))) /\
  (forall e, exists w',
     run (withCache key (Rejected e) userId expiry true) w = (inl e, w') /\
     store w' !! ck = None).
Proof.
  intros ck entry _ Hnone Hrm Hset. split.
  - destruct (run_withCache_force key (Fulfilled v) userId expiry w Hnone)
      as (w1 & w' & Hrun & Hst1 & (Hf1 & Hc1 & Hp1 & Hps1) & Hcalls1 & Hafter).
    destruct Hafter as (Hps & _ & _ & _ & Hst & Hcalls).
    fold ck in Hst1, Hcalls1, Hst, Hcalls. rewrite Hrm in Hst1.
    rewrite Hc1, Hf1 in Hst. fold entry in Hst. rewrite Hset in Hst.
    rewrite Hc1 in Hcalls. fold entry in Hcalls.
    exists w'. split; [exact Hrun |]. split; [| split].
    + rewrite Hps, Hps1. reflexivity.
    + rewrite Hcalls, Hcalls1, <- app_assoc. reflexivity.
    + rewrite Hst, Hst1. reflexivity.
  - intros e.
    destruct (run_withCache_force key (Rejected e) userId expiry w Hnone)
      as (w1 & w' & Hrun & Hst1 & _ & _ & Hafter).
    destruct Hafter as (_ & _ & _ & _ & Hst & _).
    fold ck in Hst1. rewrite Hrm in Hst1.
    exists w'. split; [exact Hrun |].
    rewrite Hst, Hst1. apply lookup_delete_eq.
Qed.

Lemma forceRefresh_bypasses_cache_witness :
  let w := fresh_world
             {[ "eiga_user_rooms_user123" :=
                  Envelope (JStr "r1") (Num 1700000000000) (Some (Num 900000)) ]}
             1700000060000 in
  let entry := Envelope (JStr "r2") (Num 1700000060000) (Some (Num 900000)) in
  (exists w',
     run (withCache "eiga_user_rooms" (Fulfilled (JStr "r2"))
            (Some "user123") (Some 900000) true) w
       = (inr (JStr "r2"), w') /\
     promises w' = promises w ++ [Promise (Fulfilled (JStr "r2")) true] /\
     calls w' = calls w ++ [RemoveItem "eiga_user_rooms_user123";
                            SetItem "eiga_user_rooms_user123" entry] /\
     store w' = <["eiga_user_rooms_user123":=entry]>
                  (delete "eiga_user_rooms_user123" (store w))) /\
  (forall e, exists w',
     run (withCache "eiga_user_rooms" (Rejected e) (Some "user123") (Some 900000) true) w
       = (inl e, w') /\
     store w' !! "eiga_user_rooms_user123" = None).
Proof.
  intros w entry.
  apply (forceRefresh_bypasses_cache "eiga_user_rooms" (Some "user123")
           (Some 900000) w (JStr "r1") (JStr "r2")).
  - apply (ValidEntry _ _ _ 1700000000000 900000 (Some (Num 900000)));
      [reflexivity | reflexivity | reflexivity | simpl; lia].
  - reflexivity.
  - reflexivity.
  - reflexivity.
Defined.

(** ** C9: store write failures are swallowed *)

(** C9.  When AsyncStorage rejects the write of the envelope, [saveToCache]
    still resolves: the store is unchanged and the failure is printed with
    [console.error].  A [withCache] that reaches its fetch (forced, or on a
    miss, with no request registered) and whose [fetchFn] succeeds resolves
    to the fetched payload all the same, having written nothing. *)
Theorem store_write_failures_swallowed key userId data expiry forceRefresh w :
  let ck := cacheKey key userId in
  let c := SetItem ck (JSON_stringify data (clock w) (default DEFAULT_CACHE_EXPIRY expiry)) in
  faulty w c = true ->
  (exists w',
     run (saveToCache key data userId expiry) w = (inr tt, w') /\
     store w' = store w /\
     console w' = console w ++
       [Error ("[CACHE] Error caching " +:+ key +:+ " data:") (StorageError c)]) /\
  (pendingRequests w !! ck = None ->
   (forceRefresh = false -> miss w key userId) ->
   exists w',
     run (withCache key (Fulfilled data) userId expiry forceRefresh) w = (inr data, w') /\
     promises w' = promises w ++ [Promise (Fulfilled data) true] /\
     store w' ⊆ store w).
Proof.
  intros ck c Hfault. split.
  - destruct (run_saveToCache key data userId expiry w)
      as (w' & Hrun & Hst & _ & _ & Hcon).
    fold ck in Hst, Hcon. fold c in Hst, Hcon. rewrite Hfault in Hst, Hcon.
    exists w'. auto.
  - intros Hnone Hmiss. destruct forceRefresh.
    + destruct (run_withCache_force key (Fulfilled data) userId expiry w Hnone)
        as (w1 & w' & Hrun & Hst1 & (Hf1 & Hc1 & _ & Hps1) & _ & Hafter).
      destruct Hafter as (Hps & _ & _ & _ & Hst & _).
      rewrite Hc1, Hf1 in Hst. fold ck in Hst, Hst1. fold c in Hst.
      rewrite Hfault in Hst.
      exists w'. split; [exact Hrun |]. split; [rewrite Hps, Hps1; reflexivity |].
      rewrite Hst, Hst1.
      destruct (faulty w (RemoveItem ck)); [reflexivity | apply delete_subseteq].
    + destruct (run_withCache_miss key (Fulfilled data) userId expiry w
                  (proj1 (miss_no_answer w key userId) (Hmiss eq_refl)) Hnone)
        as (w1 & w' & Hrun & Hst1 & (Hf1 & Hc1 & _ & Hps1) & _ & Hafter).
      destruct Hafter as (Hps & _ & _ & _ & Hst & _).
      rewrite Hc1, Hf1 in Hst. fold ck in Hst. fold c in Hst.
      rewrite Hfault in Hst.
      exists w'. split; [exact Hrun |]. split; [rewrite Hps, Hps1; reflexivity |].
      rewrite Hst, Hst1. reflexivity.
Qed.

Lemma store_write_failures_swallowed_witness :
  let w := read_only_world ∅ 1700000000000 in
  let c := SetItem "eiga_user_plan_user123"
             (Envelope (JStr "free") (Num 1700000000000) (Some (Num 900000))) in
  (exists w',
     run (saveToCache "eiga_user_plan" (JStr "free") (Some "user123") None) w
       = (inr tt, w') /\
     store w' = store w /\
     console w' = console w ++
       [Error "[CACHE] Error caching eiga_user_plan data:" (StorageError c)]) /\
  (exists w',
     run (withCache "eiga_user_plan" (Fulfilled (JStr "free"))
            (Some "user123") None false) w
       = (inr (JStr "free"), w') /\
     promises w' = promises w ++ [Promise (Fulfilled (JStr "free")) true] /\
     store w' ⊆ store w).
Proof.
  intros w c.
  destruct (store_write_failures_swallowed "eiga_user_plan" (Some "user123")
              (JStr "free") None false w) as [Hsave Hwith].
  - reflexivity.
  - split; [exact Hsave |]. apply Hwith.
    + reflexivity.
    + intros _. reflexivity.
Defined.

(** ** C10: a cached null payload behaves as a miss *)

Lemma null_entry_misses w ck timestamp expiry :
  store w !! ck = Some (Envelope null timestamp expiry) -> no_answer w ck.
Proof.
  intros Hs. unfold no_answer, fresh_payload. rewrite Hs.
  destruct (faulty w (GetItem ck)); [reflexivity |].
  destruct (less _ _); reflexivity.
Qed.

Lemma miss_loads_null key userId w :
  no_answer w (cacheKey key userId) ->
  fst (run (loadFromCache key userId) w) = inr null.
Proof.
  unfold no_answer. intros Hmiss.
  destruct (run_loadFromCache key userId w) as (w' & -> & _). simpl.
  destruct (fresh_payload w (cacheKey key userId)) as [[] |];
    try discriminate; reflexivity.
Qed.

(** C10.  On a store that answers every call, with no request registered for
    the key: once [saveToCache] has stored [null] under the key, or
    [withCache] has cached a [fetchFn] result of [null] after a miss, the
    entry is in the store and younger than its ttl, and yet [loadFromCache]
    resolves to [null] and a further [withCache] invokes its [fetchFn]. *)
Theorem null_payload_is_a_miss key userId ttl d f expiry w :
  let ck := cacheKey key userId in
  let entry := Envelope null (Num (clock w)) (Some (Num (default DEFAULT_CACHE_EXPIRY ttl))) in
  healthy w ->
  0 <= d < default DEFAULT_CACHE_EXPIRY ttl ->
  pendingRequests w !! ck = None ->
  (let w1 := tick d (snd (run (saveToCache key null userId ttl) w)) in
   store w1 !! ck = Some entry /\
   fst (run (loadFromCache key userId) w1) = inr null /\
   exists w2,
     run (withCache key f userId expiry false) w1 = (settlement_of f, w2) /\
     promises w2 = promises w1 ++ [Promise f true]) /\
  (miss w key userId ->
   let w1 := tick d (snd (run (withCache key (Fulfilled null) userId ttl false) w)) in
   store w1 !! ck = Some entry /\
   fst (run (loadFromCache key userId) w1) = inr null /\
   exists w2,
     run (withCache key f userId expiry false) w1 = (settlement_of f, w2) /\
     promises w2 = promises w1 ++ [Promise f true]).
Proof.
  intros ck entry Hh Hd Hnone.
  assert (Hgo : forall w1, store w1 !! ck = Some entry ->
                 pendingRequests w1 !! ck = None ->
                 store w1 !! ck = Some entry /\
                 fst (run (loadFromCache key userId) w1) = inr null /\
                 exists w2,
                   run (withCache key f userId expiry false) w1 = (settlement_of f, w2) /\
                   promises w2 = promises w1 ++ [Promise f true]).
  { intros w1 Hs Hn. pose proof (null_entry_misses w1 ck _ _ Hs) as Hm.
    split; [exact Hs |]. split; [apply miss_loads_null; exact Hm |].
    destruct (run_withCache_miss key f userId expiry w1 Hm Hn)
      as (w1' & w2 & Hrun & _ & (_ & _ & _ & Hps1) & _ & (Hps & _)).
    exists w2. split; [exact Hrun |]. rewrite Hps, Hps1. reflexivity. }
  split.
  - intros w1. subst w1.
    destruct (run_saveToCache key null userId ttl w)
      as (ws & -> & Hst & (_ & _ & Hp & _) & _).
    rewrite Hh in Hst. apply Hgo; simpl.
    + rewrite Hst. apply lookup_insert_eq.
    + rewrite Hp. exact Hnone.
  - intros Hmiss w1. subst w1. apply miss_no_answer in Hmiss. fold ck in Hmiss.
    destruct (run_withCache_miss key (Fulfilled null) userId ttl w Hmiss Hnone)
      as (w0 & w' & -> & _ & (Hf0 & Hc0 & Hp0 & _) & _ & Hafter).
    destruct Hafter as (_ & Hp & _ & _ & Hst & _).
    rewrite Hf0, Hh, Hc0 in Hst. apply Hgo; simpl.
    + rewrite Hst. apply lookup_insert_eq.
    + rewrite Hp, Hp0. exact Hnone.
Qed.

Lemma null_payload_is_a_miss_witness :
  let w := fresh_world ∅ 1700000000000 in
  let entry := Envelope null (Num 1700000000000) (Some (Num 900000)) in
  let f := Fulfilled (JStr "free") in
  (let w1 := tick 1000 (snd (run (saveToCache "eiga_user_plan" null (Some "user123") None) w)) in
   store w1 !! "eiga_user_plan_user123" = Some entry /\
   fst (run (loadFromCache "eiga_user_plan" (Some "user123")) w1) = inr null /\
   exists w2,
     run (withCache "eiga_user_plan" f (Some "user123") None false) w1
       = (inr (JStr "free"), w2) /\
     promises w2 = promises w1 ++ [Promise f true]) /\
  (let w1 := tick 1000 (snd (run (withCache "eiga_user_plan" (Fulfilled null)
                                    (Some "user123") None false) w)) in
   store w1 !! "eiga_user_plan_user123" = Some entry /\
   fst (run (loadFromCache "eiga_user_plan" (Some "user123")) w1) = inr null /\
   exists w2,
     run (withCache "eiga_user_plan" f (Some "user123") None false) w1
       = (inr (JStr "free"), w2) /\
     promises w2 = promises w1 ++ [Promise f true]).
Proof.
  intros w entry f.
  destruct (null_payload_is_a_miss "eiga_user_plan" (Some "user123") None 1000 f None w)
    as [Hset Hfetch].
  - intros c. reflexivity.
  - simpl. unfold DEFAULT_CACHE_EXPIRY. lia.
  - reflexivity.
  - split; [exact Hset |]. apply Hfetch. reflexivity.
Defined.

(** ** More of cacheService: invalidation and round trips *)

(** X1.  [clearCache] always resolves.  It leaves every other key as it was;
    when AsyncStorage accepts the removal the entry is gone and
    [loadFromCache] resolves to [null]; when it rejects the removal, or when
    there was no entry, the store is unchanged. *)
Theorem clearCache_invalidates key userId w :
  let ck := cacheKey key userId in
  exists w',
    run (clearCache key userId) w = (inr tt, w') /\
    (forall k, k <> ck -> store w' !! k = store w !! k) /\
    (faulty w (RemoveItem ck) = false ->
     store w' !! ck = None /\ fst (run (loadFromCache key userId) w') = inr null) /\
    (faulty w (RemoveItem ck) = true \/ store w !! ck = None -> store w' = store w).
Proof.
  intros ck.
  destruct (run_clearCache key userId w) as (w' & Hrun & Hst & (Hf & Hc & _) & _).
  fold ck in Hst.
  exists w'. split; [exact Hrun |]. split; [| split].
  - intros k Hk. rewrite Hst.
    destruct (faulty w (RemoveItem ck)); [reflexivity |].
    apply lookup_delete_ne. auto.
  - intros Hok. rewrite Hok in Hst.
    assert (Hgone : store w' !! ck = None) by (rewrite Hst; apply lookup_delete_eq).
    split; [exact Hgone |].
    apply miss_no_answer. fold ck. unfold no_answer, fresh_payload. rewrite Hgone.
    destruct (faulty w' (GetItem ck)); reflexivity.
  - intros [Hbad | Habsent].
    + rewrite Hbad in Hst. exact Hst.
    + rewrite Hst. destruct (faulty w (RemoveItem ck)); [reflexivity |].
      apply delete_id. exact Habsent.
Qed.

Lemma clearCache_invalidates_witness :
  let w := fresh_world
             {[ "eiga_trending_movies_day" :=
                  Envelope (JStr "today") (Num 1700000000000) (Some (Num 300000)) ]}
             1700000060000 in
  exists w',
    run (clearCache "eiga_trending_movies_day" None) w = (inr tt, w') /\
    store w' !! "eiga_trending_movies_day" = None /\
    fst (run (loadFromCache "eiga_trending_movies_day" None) w') = inr null.
Proof.
  intros w.
  destruct (clearCache_invalidates "eiga_trending_movies_day" None w)
    as (w' & Hrun & _ & Hgone & _).
  exists w'. split; [exact Hrun |]. apply Hgone. reflexivity.
Defined.

(** What [saveToCache] leaves in a store that answers. *)
Lemma store_after_save key data userId expiry w :
  healthy w ->
  let w1 := snd (run (saveToCache key data userId expiry) w) in
  store w1 = <[cacheKey key userId :=
                 JSON_stringify data (clock w) (default DEFAULT_CACHE_EXPIRY expiry)]>
               (store w) /\
  faulty w1 = faulty w /\ clock w1 = clock w /\
  pendingRequests w1 = pendingRequests w /\ promises w1 = promises w.
Proof.
  intros Hh w1. subst w1.
  destruct (run_saveToCache key data userId expiry w)
    as (w1 & -> & Hst & (Hf & Hc & Hp & Hps) & _).
  rewrite Hh in Hst. simpl. auto.
Qed.

(** What [loadFromCache] resolves to, read off the store. *)
Lemma load_result key userId w :
  fst (run (loadFromCache key userId) w)
  = inr (default null (fresh_payload w (cacheKey key userId))).
Proof.
  destruct (run_loadFromCache key userId w) as (w' & -> & _). reflexivity.
Qed.

(** The entry [saveToCache] wrote, as [loadFromCache] finds it [d] ms later. *)
Lemma fresh_payload_saved key data userId expiry d w :
  healthy w ->
  fresh_payload (tick d (snd (run (saveToCache key data userId expiry) w)))
                (cacheKey key userId)
  = (if d <? default DEFAULT_CACHE_EXPIRY expiry
     then Some (JSON_roundtrip data) else None).
Proof.
  intros Hh.
  destruct (store_after_save key data userId expiry w Hh) as (Hst & Hf & Hc & _).
  unfold fresh_payload, tick.
  cbn [faulty store clock]. rewrite Hf, Hh, Hst, lookup_insert_eq.
  unfold JSON_stringify. cbn [minus less default]. rewrite Hc.
  replace (clock w + d - clock w) with d by lia. reflexivity.
Qed.

(** X2.  Round trip.  On a store that answers, what [saveToCache] wrote (the
    payload as the JSON round trip gives it back) is what [loadFromCache]
    resolves to [d] ms later exactly when [d] is less than the ttl it was
    saved with; from then on [loadFromCache] resolves to [null].  A ttl of
    zero or less is never served; an entry stamped in the future ([d]
    negative) is. *)
Theorem save_load_round_trip key data userId expiry d w :
  healthy w ->
  fst (run (loadFromCache key userId)
         (tick d (snd (run (saveToCache key data userId expiry) w))))
  = inr (if d <? default DEFAULT_CACHE_EXPIRY expiry
         then JSON_roundtrip data else null).
Proof.
  intros Hh. rewrite load_result, fresh_payload_saved by exact Hh.
  destruct (d <? default DEFAULT_CACHE_EXPIRY expiry); reflexivity.
Qed.

Lemma save_load_round_trip_witness :
  let w := fresh_world ∅ 1700000000000 in
  let w1 := snd (run (saveToCache "eiga_user_plan" (JStr "pro") (Some "user123")
                        (Some 300000)) w) in
  fst (run (loadFromCache "eiga_user_plan" (Some "user123")) (tick 299999 w1))
    = inr (JStr "pro") /\
  fst (run (loadFromCache "eiga_user_plan" (Some "user123")) (tick 300000 w1))
    = inr null.
Proof.
  intros w w1. split.
  - apply (save_load_round_trip "eiga_user_plan" (JStr "pro") (Some "user123")
             (Some 300000) 299999 w). intros c. reflexivity.
  - apply (save_load_round_trip "eiga_user_plan" (JStr "pro") (Some "user123")
             (Some 300000) 300000 w). intros c. reflexivity.
Defined.

(** X3.  The last write wins and restarts the clock: after two [saveToCache]
    under one composite key, [loadFromCache] serves the second payload for
    the second ttl counted from the second write, whatever the first payload,
    its ttl and the time between the two. *)
Theorem save_overwrites key userId data1 expiry1 d1 data2 expiry2 d2 w :
  healthy w ->
  let w1 := tick d1 (snd (run (saveToCache key data1 userId expiry1) w)) in
  let w2 := tick d2 (snd (run (saveToCache key data2 userId expiry2) w1)) in
  store w2 !! cacheKey key userId
    = Some (JSON_stringify data2 (clock w + d1) (default DEFAULT_CACHE_EXPIRY expiry2)) /\
  fst (run (loadFromCache key userId) w2)
    = inr (if d2 <? default DEFAULT_CACHE_EXPIRY expiry2
           then JSON_roundtrip data2 else null).
Proof.
  intros Hh w1 w2.
  destruct (store_after_save key data1 userId expiry1 w Hh) as (Hst1 & Hf1 & Hc1 & _).
  assert (Hh1 : healthy w1).
  { intros c. subst w1. unfold tick. cbn [faulty]. rewrite Hf1. apply Hh. }
  split.
  - destruct (store_after_save key data2 userId expiry2 w1 Hh1) as (Hst2 & _).
    subst w2. unfold tick at 1. cbn [store]. rewrite Hst2, lookup_insert_eq.
    subst w1. unfold tick. cbn [clock]. rewrite Hc1. reflexivity.
  - subst w2. rewrite load_result, fresh_payload_saved by exact Hh1.
    destruct (d2 <? default DEFAULT_CACHE_EXPIRY expiry2); reflexivity.
Qed.

Lemma save_overwrites_witness :
  let w := fresh_world ∅ 1700000000000 in
  let w1 := tick 800000 (snd (run (saveToCache "eiga_user_plan" (JStr "free")
                                     (Some "user123") None) w)) in
  let w2 := tick 800000 (snd (run (saveToCache "eiga_user_plan" (JStr "pro")
                                     (Some "user123") None) w1)) in
  store w2 !! "eiga_user_plan_user123"
    = Some (Envelope (JStr "pro") (Num 1700000800000) (Some (Num 900000))) /\
  fst (run (loadFromCache "eiga_user_plan" (Some "user123")) w2) = inr (JStr "pro").
Proof.
  intros w w1 w2.
  apply (save_overwrites "eiga_user_plan" (Some "user123") (JStr "free") None 800000
           (JStr "pro") None 800000 w).
  intros c. reflexivity.
Defined.

(** ** More of cacheService: the scope sweep *)

Lemma substring_here (s t : string) :
  substring 0 (String.length s) (s +:+ t) = s.
Proof. induction s as [| c s IH]; simpl; [destruct t; reflexivity | f_equal; exact IH]. Qed.

Lemma substring_skip (a s : string) (n : nat) :
  substring (String.length a) n (a +:+ s) = substring 0 n s.
Proof. induction a as [| c a IH]; simpl; [reflexivity | exact IH]. Qed.

(** [(a + sub + c).includes(sub)] *)
Lemma includes_infix (a sub c : string) :
  sub <> ""%string -> includes (a +:+ sub +:+ c) sub = true.
Proof.
  intros Hsub. unfold includes.
  destruct (index 0 sub (a +:+ sub +:+ c)) eqn:Hi; [reflexivity |].
  exfalso. apply (index_correct3 0 (String.length a) sub _ Hi Hsub); [lia |].
  rewrite substring_skip. apply substring_here.
Qed.

Lemma append_empty_r (s : string) : s +:+ "" = s.
Proof.
  induction s as [| c s IH]; [reflexivity |].
  change (String c (s +:+ "") = String c s). f_equal. exact IH.
Qed.

(** A key scoped by a non-empty [userId] contains [_userId]. *)
Lemma scoped_key_includes key userId :
  userId <> ""%string ->
  includes (cacheKey key (Some userId)) ("_" +:+ userId) = true.
Proof.
  intros Hne. unfold cacheKey.
  destruct userId as [| c u]; [contradiction |]. simpl nonempty. cbv iota.
  pose proof (includes_infix key ("_" +:+ String c u) "") as H.
  rewrite append_empty_r in H. apply H. discriminate.
Qed.

Lemma clearUserCache_resolves userId w :
  exists w', run (clearUserCache userId) w = (inr tt, w').
Proof.
  unfold clearUserCache. rewrite run_try_catch.
  destruct (run _ w) as [[e | []] w1]; simpl; eauto.
Qed.

(** X4.  On a store that answers, [clearUserCache userId] resolves and removes
    exactly the keys that contain [_userId]; so, for a non-empty [userId],
    whatever any logical key had cached under that scope is gone and
    [loadFromCache] resolves to [null] for it. *)
Theorem clearUserCache_purges_scope userId w :
  healthy w ->
  exists w',
    run (clearUserCache userId) w = (inr tt, w') /\
    (forall k, store w' !! k
               = if includes k ("_" +:+ userId) then None else store w !! k) /\
    (userId <> ""%string ->
     forall key,
       store w' !! cacheKey key (Some userId) = None /\
       fst (run (loadFromCache key (Some userId)) w') = inr null).
Proof.
  intros Hh. destruct (clearUserCache_resolves userId w) as (w' & Hrun).
  pose proof (clearUserCache_sweeps_by_inclusion userId w) as Hsweep.
  rewrite Hrun in Hsweep. simpl in Hsweep.
  exists w'. split; [exact Hrun |]. split.
  - intros k. apply Hsweep. exact Hh.
  - intros Hne key.
    assert (Hgone : store w' !! cacheKey key (Some userId) = None).
    { rewrite Hsweep by exact Hh. rewrite scoped_key_includes by exact Hne. reflexivity. }
    split; [exact Hgone |].
    rewrite load_result. unfold fresh_payload. rewrite Hgone.
    destruct (faulty w' _); reflexivity.
Qed.

Lemma clearUserCache_purges_scope_witness :
  exists w',
    run (clearUserCache "42") shared_device = (inr tt, w') /\
    store w' !! "eiga_user_rooms_42" = None /\
    fst (run (loadFromCache "eiga_user_rooms" (Some "42")) w') = inr null.
Proof.
  destruct (clearUserCache_purges_scope "42" shared_device) as (w' & Hrun & _ & Hscope).
  - intros c. reflexivity.
  - exists w'. split; [exact Hrun |].
    apply (Hscope ltac:(discriminate) "eiga_user_rooms"%string).
Defined.

(** X5.  [clearUserCache] is best effort: it resolves whatever AsyncStorage
    does.  When the keys cannot be listed, or no key contains [_userId], the
    store is unchanged; in the second case [multiRemove] is not called and
    nothing is printed. *)
Theorem clearUserCache_best_effort userId w :
  let userKeys := List.filter (fun key => includes key ("_" +:+ userId))
                    (map fst (map_to_list (store w))) in
  exists w',
    run (clearUserCache userId) w = (inr tt, w') /\
    (faulty w GetAllKeys = true ->
     store w' = store w /\
     console w' = console w ++
       [Error "[CACHE] Error clearing user cache:" (StorageError GetAllKeys)]) /\
    (faulty w GetAllKeys = false -> userKeys = [] ->
     store w' = store w /\ calls w' = calls w ++ [GetAllKeys] /\ console w' = console w).
Proof.
  intros userKeys. unfold clearUserCache. rewrite run_try_catch. simpl.
  unfold AsyncStorage_call. simpl.
  destruct (faulty w GetAllKeys) eqn:Hf; simpl.
  - eexists. split; [reflexivity |]. split; [| discriminate].
    intros _. split; reflexivity.
  - fold userKeys.
    destruct userKeys as [| k ks] eqn:Hk; simpl.
    + eexists. split; [reflexivity |]. split; [discriminate |].
      intros _ _. repeat split.
    + unfold AsyncStorage_call. simpl.
      destruct (faulty w (MultiRemove (k :: ks))); simpl;
        eexists; (split; [reflexivity |]); (split; [discriminate |]);
        intros _ Hnil; discriminate Hnil.
Qed.

Lemma clearUserCache_best_effort_witness :
  exists w',
    run (clearUserCache "user999") shared_device = (inr tt, w') /\
    store w' = store shared_device /\
    calls w' = calls shared_device ++ [GetAllKeys] /\
    console w' = console shared_device.
Proof.
  destruct (clearUserCache_best_effort "user999" shared_device) as (w' & Hrun & _ & Hnone).
  exists w'. split; [exact Hrun |]. apply Hnone; reflexivity.
Defined.

Lemma CACHE_KEYS_have_underscore k :
  k ∈ CACHE_KEYS_values -> includes k "_" = true.
Proof.
  intros Hin. apply list_elem_of_In in Hin.
  assert (H : forallb (fun k => includes k "_") CACHE_KEYS_values = true) by reflexivity.
  rewrite forallb_forall in H. apply H. exact Hin.
Qed.

(** X6.  The empty user id.  On a store that answers, [clearUserCache ""]
    removes every key that contains an underscore: the entry of every logical
    key under every non-empty scope, and every entry stored under a
    [CACHE_KEYS] key without scope. *)
Theorem clearUserCache_empty_id_wipes w :
  healthy w ->
  let w' := snd (run (clearUserCache "") w) in
  (forall key userId, userId <> ""%string ->
     store w' !! cacheKey key (Some userId) = None) /\
  (forall k, k ∈ CACHE_KEYS_values -> store w' !! k = None).
Proof.
  intros Hh w'. subst w'. split.
  - intros key userId Hne.
    rewrite clearUserCache_sweeps_by_inclusion by exact Hh.
    change ("_" +:+ "")%string with "_"%string.
    assert (Hk : cacheKey key (Some userId) = key +:+ "_" +:+ userId).
    { unfold cacheKey. destruct userId; [contradiction | reflexivity]. }
    rewrite Hk, (includes_infix key "_" userId) by discriminate. reflexivity.
  - intros k Hk.
    rewrite clearUserCache_sweeps_by_inclusion by exact Hh.
    change ("_" +:+ "")%string with "_"%string.
    rewrite (CACHE_KEYS_have_underscore k Hk). reflexivity.
Qed.

Lemma clearUserCache_empty_id_wipes_witness :
  let w' := snd (run (clearUserCache "") shared_device) in
  store w' !! "eiga_user_rooms_421" = None /\
  store w' !! "eiga_movie_details" = None.
Proof.
  intros w'.
  destruct (clearUserCache_empty_id_wipes shared_device) as [Hscoped Hkeys].
  - intros c. reflexivity.
  - split.
    + apply (Hscoped "eiga_user_rooms"%string "421"%string). discriminate.
    + apply (Hkeys "eiga_movie_details"%string). vm_compute. set_solver.
Defined.

(** ** More of withCache *)

(** What one lone [withCache] changes, at most. *)
Lemma run_withCache_frame key f userId expiry forceRefresh w :
  let ck := cacheKey key userId in
  let w' := snd (run (withCache key f userId expiry forceRefresh) w) in
  pendingRequests w !! ck = None ->
  (forall k, k <> ck -> store w' !! k = store w !! k) /\
  pendingRequests w' = pendingRequests w /\
  (promises w' = promises w \/ promises w' = promises w ++ [Promise f true]) /\
  faulty w' = faulty w /\ clock w' = clock w.
Proof.
  intros ck w' Hnone. subst w'.
  assert (Hafter : forall w1 w2,
            store w1 = store w \/ store w1 = delete ck (store w) ->
            same_memory w w1 ->
            after_fetch f ck (default DEFAULT_CACHE_EXPIRY expiry) w1 w2 ->
            (forall k, k <> ck -> store w2 !! k = store w !! k) /\
            pendingRequests w2 = pendingRequests w /\
            (promises w2 = promises w \/ promises w2 = promises w ++ [Promise f true]) /\
            faulty w2 = faulty w /\ clock w2 = clock w).
  { intros w1 w2 Hst1 (Hf1 & Hc1 & Hp1 & Hps1) (Hps & Hp & Hf & Hc & Hst).
    split; [| split; [| split; [| split]]].
    - intros k Hk.
      assert (H1 : store w1 !! k = store w !! k).
      { destruct Hst1 as [-> | ->]; [reflexivity | apply lookup_delete_ne; auto]. }
      rewrite <- H1. destruct f as [v | e].
      + destruct Hst as [-> _].
        destruct (faulty w1 _); [reflexivity | apply lookup_insert_ne; auto].
      + destruct Hst as [-> _]. reflexivity.
    - rewrite Hp. exact Hp1.
    - right. rewrite Hps, Hps1. reflexivity.
    - rewrite Hf. exact Hf1.
    - rewrite Hc. exact Hc1. }
  destruct forceRefresh.
  - destruct (run_withCache_force key f userId expiry w Hnone)
      as (w1 & w2 & -> & Hst1 & Hmem & _ & Haf).
    apply (Hafter w1 w2); auto. fold ck in Hst1.
    destruct (faulty w (RemoveItem ck)); auto.
  - destruct (fresh_payload w ck) as [data |] eqn:Hfresh.
    + destruct (not_null data) eqn:Hnn.
      * destruct (run_withCache_hit key f userId expiry w data Hfresh Hnn)
          as (w1 & -> & Hst & (Hf & Hc & Hp & Hps) & _).
        simpl. rewrite Hst. auto 10.
      * assert (Hmiss : no_answer w ck) by (unfold no_answer; rewrite Hfresh; exact Hnn).
        destruct (run_withCache_miss key f userId expiry w Hmiss Hnone)
          as (w1 & w2 & -> & Hst1 & Hmem & _ & Haf).
        apply (Hafter w1 w2); auto.
    + assert (Hmiss : no_answer w ck) by (unfold no_answer; rewrite Hfresh; reflexivity).
      destruct (run_withCache_miss key f userId expiry w Hmiss Hnone)
        as (w1 & w2 & -> & Hst1 & Hmem & _ & Haf).
      apply (Hafter w1 w2); auto.
Qed.

(** X7.  What a lone [withCache] leaves alone.  With no request registered
    for its key, whatever [fetchFn] does, forced or not, and whatever
    AsyncStorage rejects: the entries of all other keys are as before, the
    registry is as before, and [fetchFn] has been invoked at most once. *)
Theorem withCache_frame key f userId expiry forceRefresh w :
  let ck := cacheKey key userId in
  let w' := snd (run (withCache key f userId expiry forceRefresh) w) in
  pendingRequests w !! ck = None ->
  (forall k, k <> ck -> store w' !! k = store w !! k) /\
  pendingRequests w' = pendingRequests w /\
  (promises w' = promises w \/ promises w' = promises w ++ [Promise f true]).
Proof.
  intros ck w' Hnone.
  destruct (run_withCache_frame key f userId expiry forceRefresh w Hnone)
    as (Hothers & Hregistry & Hfetch & _).
  split; [exact Hothers |]. split; [exact Hregistry | exact Hfetch].
Qed.

Lemma withCache_frame_witness :
  let w' := snd (run (withCache "eiga_user_rooms" (Fulfilled (JStr "rooms"))
                        (Some "42") None true) shared_device) in
  (forall k, k <> "eiga_user_rooms_42"%string ->
     store w' !! k = store shared_device !! k) /\
  pendingRequests w' = pendingRequests shared_device /\
  (promises w' = promises shared_device \/
   promises w' = promises shared_device ++ [Promise (Fulfilled (JStr "rooms")) true]).
Proof.
  apply (withCache_frame "eiga_user_rooms" (Fulfilled (JStr "rooms")) (Some "42")
           None true shared_device).
  reflexivity.
Defined.

(** X8.  An entry that cannot be read is a miss, and is replaced.  When
    AsyncStorage rejects the read, or holds under the key the empty string, a
    string that does not parse, or an envelope without a numeric timestamp,
    [withCache] invokes [fetchFn] once and resolves to its payload; if the
    store accepts the write, the fetched envelope takes the place of what
    was there. *)
Theorem unreadable_entry_is_replaced key userId expiry v w :
  let ck := cacheKey key userId in
  let entry := JSON_stringify v (clock w) (default DEFAULT_CACHE_EXPIRY expiry) in
  faulty w (GetItem ck) = true \/
  store w !! ck = Some Blank \/
  store w !! ck = Some Malformed \/
  (exists data expiry0, store w !! ck = Some (Envelope data NaN expiry0)) ->
  pendingRequests w !! ck = None ->
  exists w',
    run (withCache key (Fulfilled v) userId expiry false) w = (inr v, w') /\
    promises w' = promises w ++ [Promise (Fulfilled v) true] /\
    (faulty w (SetItem ck entry) = false -> store w' !! ck = Some entry).
Proof.
  intros ck entry Hbad Hnone.
  assert (Hmiss : no_answer w ck).
  { unfold no_answer, fresh_payload.
    destruct Hbad as [-> | [-> | [-> | (data & expiry0 & ->)]]]; try reflexivity;
      destruct (faulty w (GetItem ck)); reflexivity. }
  destruct (run_withCache_miss key (Fulfilled v) userId expiry w Hmiss Hnone)
    as (w1 & w' & Hrun & Hst1 & (Hf1 & Hc1 & Hp1 & Hps1) & _ & Hafter).
  destruct Hafter as (Hps & _ & _ & _ & Hst & _).
  exists w'. split; [exact Hrun |]. split.
  - rewrite Hps, Hps1. reflexivity.
  - intros Hset. rewrite Hst, Hc1, Hf1. fold ck. fold entry. rewrite Hset.
    apply lookup_insert_eq.
Qed.

Lemma unreadable_entry_is_replaced_witness :
  let w := fresh_world {[ "eiga_user_plan_user123" := Malformed ]} 1700000000000 in
  exists w',
    run (withCache "eiga_user_plan" (Fulfilled (JStr "pro")) (Some "user123")
           None false) w
      = (inr (JStr "pro"), w') /\
    promises w' = promises w ++ [Promise (Fulfilled (JStr "pro")) true] /\
    store w' !! "eiga_user_plan_user123"
      = Some (Envelope (JStr "pro") (Num 1700000000000) (Some (Num 900000))).
Proof.
  intros w.
  destruct (unreadable_entry_is_replaced "eiga_user_plan" (Some "user123") None
              (JStr "pro") w) as (w' & Hrun & Hps & Hst).
  - right. right. left. reflexivity.
  - reflexivity.
  - exists w'. split; [exact Hrun |]. split; [exact Hps |]. apply Hst. reflexivity.
Defined.

(** What a [withCache] that missed and fetched [v] leaves for the next
    reader, [d] ms later. *)
Lemma fresh_after_withCache key userId expiry v d w :
  let ck := cacheKey key userId in
  let w1 := tick d (snd (run (withCache key (Fulfilled v) userId expiry false) w)) in
  healthy w ->
  no_answer w ck ->
  pendingRequests w !! ck = None ->
  fresh_payload w1 ck
    = (if d <? default DEFAULT_CACHE_EXPIRY expiry
       then Some (JSON_roundtrip v) else None) /\
  pendingRequests w1 !! ck = None /\
  healthy w1 /\
  promises w1 = promises w ++ [Promise (Fulfilled v) true].
Proof.
  intros ck w1 Hh Hmiss Hnone.
  destruct (run_withCache_miss key (Fulfilled v) userId expiry w Hmiss Hnone)
    as (w0 & w' & Hrun & Hst0 & (Hf0 & Hc0 & Hp0 & Hps0) & _ & Hafter).
  destruct Hafter as (Hps & Hp & Hf & Hc & Hst & _).
  fold ck in Hst. rewrite Hf0, Hh, Hc0 in Hst.
  subst w1. rewrite Hrun. cbn [snd].
  split; [| split; [| split]].
  - unfold fresh_payload, tick. cbn [faulty store clock].
    rewrite Hf, Hf0, Hh, Hst, lookup_insert_eq.
    unfold JSON_stringify. cbn [minus less default]. rewrite Hc, Hc0.
    replace (clock w + d - clock w) with d by lia. reflexivity.
  - unfold tick. cbn [pendingRequests]. rewrite Hp, Hp0. exact Hnone.
  - intros c. unfold tick. cbn [faulty]. rewrite Hf, Hf0. apply Hh.
  - unfold tick. cbn [promises]. rewrite Hps, Hps0. reflexivity.
Qed.

(** X9.  Read-through.  On a store that answers, after a [withCache] that
    missed and fetched a payload [v] that the JSON round trip does not turn
    into [null], the next [withCache] for the key, [d] ms later, resolves to
    [v] as the round trip gives it back, without invoking its [fetchFn],
    when [d] is less than the ttl of the first call, and invokes its
    [fetchFn] from then on; the ttl the second call passes plays no part in
    that. *)
Theorem withCache_read_through key userId expiry v f2 expiry2 d w :
  let ck := cacheKey key userId in
  let ttl := default DEFAULT_CACHE_EXPIRY expiry in
  let w1 := tick d (snd (run (withCache key (Fulfilled v) userId expiry false) w)) in
  healthy w ->
  miss w key userId ->
  pendingRequests w !! ck = None ->
  JSON_roundtrip v <> null ->
  (d < ttl ->
   exists w2,
     run (withCache key f2 userId expiry2 false) w1 = (inr (JSON_roundtrip v), w2) /\
     promises w2 = promises w1) /\
  (ttl <= d ->
   exists w2,
     run (withCache key f2 userId expiry2 false) w1 = (settlement_of f2, w2) /\
     promises w2 = promises w1 ++ [Promise f2 true]).
Proof.
  intros ck ttl w1 Hh Hmiss Hnone Hv. apply miss_no_answer in Hmiss.
  destruct (fresh_after_withCache key userId expiry v d w Hh Hmiss Hnone)
    as (Hfresh & Hnone' & _).
  fold ck in Hfresh, Hnone'. fold ttl in Hfresh. fold w1 in Hfresh, Hnone'.
  split.
  - intros Hlt.
    destruct (Z.ltb_spec d ttl) as [_ | Hge]; [| lia].
    destruct (run_withCache_hit key f2 userId expiry2 w1 _ Hfresh)
      as (w2 & Hrun2 & _ & (_ & _ & _ & Hps2) & _).
    { apply not_null_neq. exact Hv. }
    exists w2. auto.
  - intros Hge.
    destruct (Z.ltb_spec d ttl) as [Hlt | _]; [lia |].
    assert (Hmiss2 : no_answer w1 ck)
      by (unfold no_answer; rewrite Hfresh; reflexivity).
    destruct (run_withCache_miss key f2 userId expiry2 w1 Hmiss2 Hnone')
      as (w1' & w2 & Hrun2 & _ & (_ & _ & _ & Hps1') & _ & (Hps2 & _)).
    exists w2. split; [exact Hrun2 |]. rewrite Hps2, Hps1'. reflexivity.
Qed.

Lemma withCache_read_through_witness :
  let w := fresh_world ∅ 1700000000000 in
  let r1 := JArr [JObj [("id", JStr "r1")]] in
  let r2 := JArr [JObj [("id", JStr "r2")]] in
  let after d := tick d (snd (run (withCache "rooms" (Fulfilled r1) (Some "user123")
                                     (Some 900000) false) w)) in
  (exists w2,
     run (withCache "rooms" (Fulfilled r2) (Some "user123") (Some 900000) false)
         (after 899999) = (inr r1, w2) /\
     promises w2 = promises (after 899999)) /\
  (exists w2,
     run (withCache "rooms" (Fulfilled r2) (Some "user123") (Some 900000) false)
         (after 900000) = (inr r2, w2) /\
     promises w2 = promises (after 900000) ++ [Promise (Fulfilled r2) true]).
Proof.
  intros w r1 r2 after. split.
  - destruct (withCache_read_through "rooms" (Some "user123") (Some 900000) r1
                (Fulfilled r2) (Some 900000) 899999 w) as [Hhit _].
    + intros c. reflexivity.
    + reflexivity.
    + reflexivity.
    + discriminate.
    + apply Hhit. simpl. lia.
  - destruct (withCache_read_through "rooms" (Some "user123") (Some 900000) r1
                (Fulfilled r2) (Some 900000) 900000 w) as [_ Hmiss].
    + intros c. reflexivity.
    + reflexivity.
    + reflexivity.
    + discriminate.
    + apply Hmiss. simpl. lia.
Defined.

(** ** More of withCache: a request already registered *)

Lemma lookup_settled (ps : list promise) (p : nat) (c : promise) :
  ps !! p = Some c ->
  alter (fun c => Promise (outcome c) true) p ps !! p = Some (Promise (outcome c) true).
Proof.
  intros Hc. rewrite list_lookup_alter, decide_True by reflexivity.
  rewrite Hc. reflexivity.
Qed.

(** Lines 99-117 when a request is registered for the key: how the rest of
    [withCache] ends once that request has settled. *)
Lemma run_withCache_pending_registered key f userId expiry p c w :
  let ck := cacheKey key userId in
  pendingRequests w !! ck = Some p ->
  promises w !! p = Some c ->
  exists w',
    run (withCache_pending key f userId expiry) w
      = (match outcome c with
         | Fulfilled v => if truthy v then inr v else settlement_of f
         | Rejected e => inl e
         end, w') /\
    faulty w' = faulty w /\ clock w' = clock w /\
    match outcome c with
    | Fulfilled v =>
        if truthy v
        then length (promises w') = length (promises w) /\ store w' = store w /\
             pendingRequests w' = pendingRequests w /\ calls w' = calls w
        else length (promises w') = S (length (promises w)) /\
             pendingRequests w' = delete ck (pendingRequests w)
    | Rejected _ =>
        length (promises w') = length (promises w) /\ store w' = store w /\
        pendingRequests w' = pendingRequests w /\ calls w' = calls w
    end.
Proof.
  intros ck Hreg Hc. unfold withCache_pending. fold ck.
  rewrite run_mbind. simpl. rewrite Hreg. simpl.
  unfold settle. simpl. rewrite (lookup_settled _ _ _ Hc). simpl.
  destruct (outcome c) as [v | e] eqn:Ho; simpl.
  - destruct (truthy v) eqn:Ht; simpl.
    + rewrite Hreg. simpl. unfold settle. simpl.
      erewrite lookup_settled by (apply lookup_settled; exact Hc). simpl.
      rewrite Ho. eexists. split; [reflexivity |]. simpl.
      rewrite !length_alter. repeat split.
    + rewrite lookup_insert_eq. simpl. unfold settle. simpl.
      rewrite settle_last, lookup_last. simpl.
      destruct f as [v' | e']; simpl.
      * unfold AsyncStorage_call. simpl.
        destruct (faulty w _); simpl; eexists; (split; [reflexivity |]); simpl;
          rewrite length_app, length_alter, delete_insert_eq; simpl;
          repeat split; lia.
      * eexists. split; [reflexivity |]. simpl.
        rewrite length_app, length_alter, delete_insert_eq. simpl. repeat split; lia.
  - eexists. split; [reflexivity |]. simpl. rewrite length_alter. repeat split.
Qed.

(** X10.  Attaching.  A lone [withCache] that misses while a request is
    registered for its key waits for it: once that request has settled with a
    truthy payload the call resolves to that payload, and once it has failed
    the call rejects with the same error; in both cases its own [fetchFn] is
    not invoked, the store is not written and the registration is left to
    its owner. *)
Theorem withCache_attaches key f userId expiry p c w :
  let ck := cacheKey key userId in
  miss w key userId ->
  pendingRequests w !! ck = Some p ->
  promises w !! p = Some c ->
  (forall v, outcome c = Fulfilled v -> truthy v = true ->
     exists w',
       run (withCache key f userId expiry false) w = (inr v, w') /\
       invocations w' = invocations w /\ store w' = store w /\
       pendingRequests w' = pendingRequests w) /\
  (forall e, outcome c = Rejected e ->
     exists w',
       run (withCache key f userId expiry false) w = (inl e, w') /\
       invocations w' = invocations w /\ store w' = store w /\
       pendingRequests w' = pendingRequests w).
Proof.
  intros ck Hmiss Hreg Hc. apply miss_no_answer in Hmiss. fold ck in Hmiss.
  unfold no_answer in Hmiss.
  assert (Hgo : exists w1 w',
            run (withCache key f userId expiry false) w
            = run (withCache_pending key f userId (default DEFAULT_CACHE_EXPIRY expiry)) w1 /\
            run (withCache_pending key f userId (default DEFAULT_CACHE_EXPIRY expiry)) w1
            = (match outcome c with
               | Fulfilled v => if truthy v then inr v else settlement_of f
               | Rejected e => inl e
               end, w') /\
            store w1 = store w /\ promises w1 = promises w /\
            pendingRequests w1 = pendingRequests w /\
            match outcome c with
            | Fulfilled v =>
                if truthy v
                then length (promises w') = length (promises w1) /\ store w' = store w1 /\
                     pendingRequests w' = pendingRequests w1 /\ calls w' = calls w1
                else True
            | Rejected _ =>
                length (promises w') = length (promises w1) /\ store w' = store w1 /\
                pendingRequests w' = pendingRequests w1 /\ calls w' = calls w1
            end).
  { rewrite run_withCache.
    destruct (run_loadFromCache key userId w) as (w1 & -> & Hst & (_ & _ & Hp & Hps) & _).
    fold ck. cbv zeta. rewrite Hmiss.
    destruct (run_withCache_pending_registered key f userId
                (default DEFAULT_CACHE_EXPIRY expiry) p c w1)
      as (w' & Hrun & _ & _ & Hrest).
    { rewrite Hp. exact Hreg. }
    { rewrite Hps. exact Hc. }
    exists w1, w'. split; [reflexivity |]. split; [exact Hrun |].
    split; [exact Hst |]. split; [exact Hps |]. split; [exact Hp |].
    destruct (outcome c) as [v | e]; [destruct (truthy v) |]; auto. }
  destruct Hgo as (w1 & w' & Heq & Hrun & Hst1 & Hps1 & Hp1 & Hrest).
  split.
  - intros v Ho Ht. rewrite Ho, Ht in Hrun, Hrest.
    destruct Hrest as (Hlen & Hst & Hp & _).
    exists w'. rewrite Heq. split; [exact Hrun |]. unfold invocations.
    rewrite Hlen, Hps1, Hst, Hst1, Hp, Hp1. auto.
  - intros e Ho. rewrite Ho in Hrun, Hrest.
    destruct Hrest as (Hlen & Hst & Hp & _).
    exists w'. rewrite Heq. split; [exact Hrun |]. unfold invocations.
    rewrite Hlen, Hps1, Hst, Hst1, Hp, Hp1. auto.
Qed.

Lemma withCache_attaches_witness :
  let w := fetch_in_flight (Fulfilled (JStr "rooms")) in
  exists w',
    run (withCache "eiga_user_rooms" (Fulfilled (JStr "other")) (Some "user123")
           None false) w
      = (inr (JStr "rooms"), w') /\
    invocations w' = invocations w /\ store w' = store w /\
    pendingRequests w' = pendingRequests w.
Proof.
  intros w.
  destruct (withCache_attaches "eiga_user_rooms" (Fulfilled (JStr "other"))
              (Some "user123") None 0%nat (Promise (Fulfilled (JStr "rooms")) false) w)
    as [Hok _].
  - reflexivity.
  - reflexivity.
  - reflexivity.
  - apply Hok; reflexivity.
Defined.

(** X11.  A falsy payload is taken for "nothing registered".  A lone
    [withCache] that misses while a request is registered for its key, and
    finds that request settled with a falsy payload ([null], [false], [0],
    the empty string, [undefined]), invokes its own [fetchFn], resolves as
    that one settles, and deletes the registration on its way out. *)
Theorem withCache_refetches_on_falsy key f userId expiry p c v w :
  let ck := cacheKey key userId in
  miss w key userId ->
  pendingRequests w !! ck = Some p ->
  promises w !! p = Some c ->
  outcome c = Fulfilled v ->
  truthy v = false ->
  exists w',
    run (withCache key f userId expiry false) w = (settlement_of f, w') /\
    invocations w' = S (invocations w) /\
    pendingRequests w' !! ck = None.
Proof.
  intros ck Hmiss Hreg Hc Ho Ht. apply miss_no_answer in Hmiss. fold ck in Hmiss.
  unfold no_answer in Hmiss. rewrite run_withCache.
  destruct (run_loadFromCache key userId w) as (w1 & -> & Hst & (_ & _ & Hp & Hps) & _).
  fold ck. cbv zeta. rewrite Hmiss.
  destruct (run_withCache_pending_registered key f userId
              (default DEFAULT_CACHE_EXPIRY expiry) p c w1)
    as (w' & Hrun & _ & _ & Hrest).
  { rewrite Hp. exact Hreg. }
  { rewrite Hps. exact Hc. }
  rewrite Ho, Ht in Hrun, Hrest. destruct Hrest as (Hlen & Hdel).
  exists w'. split; [exact Hrun |]. unfold invocations. split.
  - rewrite Hlen, Hps. reflexivity.
  - rewrite Hdel. apply lookup_delete_eq.
Qed.

Lemma withCache_refetches_on_falsy_witness :
  let w := fetch_in_flight (Fulfilled (JNum 0)) in
  exists w',
    run (withCache "eiga_user_rooms" (Fulfilled (JNum 7)) (Some "user123")
           None false) w
      = (inr (JNum 7), w') /\
    invocations w' = S (invocations w) /\
    pendingRequests w' !! "eiga_user_rooms_user123" = None.
Proof.
  intros w.
  apply (withCache_refetches_on_falsy "eiga_user_rooms" (Fulfilled (JNum 7))
           (Some "user123") None 0%nat (Promise (Fulfilled (JNum 0)) false)
           (JNum 0) w); reflexivity.
Defined.

(** ** More of withCache: on the event loop *)

Lemma lookup_first_of_two (ps : list promise) (c1 c2 : promise) :
  ((ps ++ [c1]) ++ [c2]) !! length ps = Some c1.
Proof. rewrite <- app_assoc. induction ps as [| c ps IH]; simpl; auto. Qed.

(** One more event of a schedule, with what is known of the store and of the
    registry. *)
Ltac resume_next Hrun Hf Hs Hl Hnone :=
  repeat (progress (unfold AsyncStorage_call in Hrun; simpl in Hrun;
                    rewrite ?Hf, ?Hs, ?Hl, ?Hnone, ?lookup_insert_eq,
                            ?lookup_last, ?lookup_first_of_two in Hrun;
                    simpl in Hrun)).

(** The end of a schedule: either a call does not wait for a fetch yet, or
    both do and the count is read off. *)
Ltac both_await :=
  match goal with
  | Hrun : Some _ = Some _, Hts : map awaited_fetch _ = _ |- _ =>
      injection Hrun as <-; simpl in Hts;
      first [ discriminate Hts
            | injection Hts as <- <-; simpl; unfold invocations; simpl;
              rewrite ?lookup_last, ?lookup_first_of_two, ?length_app; simpl;
              repeat split;
              first [ reflexivity | lia | left; reflexivity | right; reflexivity ] ]
  end.

(** Every schedule, event by event; a resumption of a call that waits for an
    unsettled promise is not a step of the event loop. *)
Ltac every_schedule Hf Hs Hl Hnone :=
  match goal with
  | Hes : forallb resumes_a_call ?es = true, Hrun : exec_all ?es _ = Some _ |- _ =>
      destruct es as [| [? | [| [| ?]] | ? | ?] es];
      [ simpl in Hrun; both_await
      | discriminate Hes
      | simpl in Hes; resume_next Hrun Hf Hs Hl Hnone;
        first [ discriminate Hrun | every_schedule Hf Hs Hl Hnone ]
      | simpl in Hes; resume_next Hrun Hf Hs Hl Hnone;
        first [ discriminate Hrun | every_schedule Hf Hs Hl Hnone ]
      | discriminate Hes
      | discriminate Hes
      | discriminate Hes ]
  end.

(** X12.  Two calls made in the same turn, in every order in which the event
    loop can resume them.  Whenever the cache does not answer for the key
    and nothing is registered for it, and however the two calls are resumed
    up to the point where each waits for a fetch: if both stood at line 100
    before either went on, [fetchFn] has been invoked twice and each call
    waits for the promise of its own [fetchFn]; in every other order it has
    been invoked once, and both calls wait for that one promise. *)
Theorem same_turn_calls_race_or_share key userId expiry f1 f2 w es s p q :
  miss w key userId ->
  pendingRequests w !! cacheKey key userId = None ->
  forallb resumes_a_call es = true ->
  exec_all (same_turn key userId expiry f1 f2 es) (MkSystem w []) = Some s ->
  map awaited_fetch (tasks s) = [Some p; Some q] ->
  if both_at_line_100 es
  then invocations (world s) = (invocations w + 2)%nat /\
       promises (world s) !! p = Some (Promise f1 false) /\
       promises (world s) !! q = Some (Promise f2 false) /\
       p <> q
  else invocations (world s) = (invocations w + 1)%nat /\
       p = q /\
       (promises (world s) !! p = Some (Promise f1 false) \/
        promises (world s) !! p = Some (Promise f2 false)).
Proof.
  intros Hmiss Hnone Hes Hrun Hts. apply miss_no_answer in Hmiss.
  unfold no_answer, fresh_payload in Hmiss.
  unfold same_turn, withCache, withCache_pending, loadFromCache, await_call in Hrun.
  set (ck := cacheKey key userId) in *.
  simpl in Hrun.
  destruct (faulty w (GetItem ck)) eqn:Hf.
  - every_schedule Hf Hf Hf Hnone.
  - destruct (store w !! ck) as [[| | data [| t] ttl] |] eqn:Hs; simpl in Hmiss.
    + every_schedule Hf Hs Hs Hnone.
    + every_schedule Hf Hs Hs Hnone.
    + every_schedule Hf Hs Hs Hnone.
    + destruct ttl as [[| ttl] |]; simpl in Hmiss.
      * every_schedule Hf Hs Hs Hnone.
      * destruct (clock w - t <? ttl) eqn:Hl.
        -- destruct data; try discriminate. every_schedule Hf Hs Hl Hnone.
        -- every_schedule Hf Hs Hl Hnone.
      * destruct (clock w - t <? DEFAULT_CACHE_EXPIRY) eqn:Hl.
        -- destruct data; try discriminate. every_schedule Hf Hs Hl Hnone.
        -- every_schedule Hf Hs Hl Hnone.
    + every_schedule Hf Hs Hs Hnone.
Qed.

Lemma same_turn_calls_race_or_share_witness :
  let w := fresh_world ∅ 1700000000000 in
  let run_to_fetch es :=
    option_map (fun s => (invocations (world s), map awaited_fetch (tasks s)))
      (exec_all (same_turn "eiga_movie_details_603" None (Some LONG_CACHE_EXPIRY)
                   (nth_fetch 1) (nth_fetch 2) es) (MkSystem w [])) in
  run_to_fetch [Resume 0; Resume 1; Resume 0; Resume 1; Resume 0; Resume 1]%nat
    = Some (2%nat, [Some 0%nat; Some 1%nat]) /\
  run_to_fetch [Resume 0; Resume 0; Resume 1; Resume 0; Resume 1]%nat
    = Some (1%nat, [Some 0%nat; Some 0%nat]).
Proof.
  intros w run_to_fetch. subst run_to_fetch. cbv beta. split.
  - destruct (exec_all _ _) as [s |] eqn:Hrun; [| vm_compute in Hrun; discriminate Hrun].
    assert (Hts : map awaited_fetch (tasks s) = [Some 0%nat; Some 1%nat])
      by (vm_compute in Hrun; injection Hrun as <-; reflexivity).
    pose proof (same_turn_calls_race_or_share _ _ _ _ _ w
                  [Resume 0; Resume 1; Resume 0; Resume 1; Resume 0; Resume 1]%nat
                  s _ _ eq_refl eq_refl eq_refl Hrun Hts) as (Hinv & _).
    simpl. rewrite Hinv, Hts. reflexivity.
  - destruct (exec_all _ _) as [s |] eqn:Hrun; [| vm_compute in Hrun; discriminate Hrun].
    assert (Hts : map awaited_fetch (tasks s) = [Some 0%nat; Some 0%nat])
      by (vm_compute in Hrun; injection Hrun as <-; reflexivity).
    pose proof (same_turn_calls_race_or_share _ _ _ _ _ w
                  [Resume 0; Resume 0; Resume 1; Resume 0; Resume 1]%nat
                  s _ _ eq_refl eq_refl eq_refl Hrun Hts) as (Hinv & _).
    simpl. rewrite Hinv, Hts. reflexivity.
Defined.

(** Resume the two calls of [late_call], with what is known of the store. *)
Ltac resume_late Hf Hs Hl Hnone :=
  unfold AsyncStorage_call; simpl; try rewrite Hf; try rewrite Hs; simpl;
  try rewrite Hl; simpl; try rewrite Hnone; simpl;
  rewrite ?lookup_insert_eq; simpl;
  unfold AsyncStorage_call; simpl; try rewrite Hf; try rewrite Hs; simpl;
  try rewrite Hl; simpl; rewrite ?lookup_insert_eq; simpl; reflexivity.

(** X13.  Single flight when the calls do not race.  Whenever the cache does
    not answer for a key and nothing is registered for it: a second
    [withCache] made after the first has registered its fetch finds the
    registration at line 100 and waits for that promise; [fetchFn] has been
    invoked once, by the first call. *)
Theorem late_call_waits_for_first key userId expiry f1 f2 w :
  miss w key userId ->
  pendingRequests w !! cacheKey key userId = None ->
  option_map (fun s => (promises (world s),
                        pendingRequests (world s) !! cacheKey key userId,
                        map suspended_at (tasks s)))
             (exec_all (late_call key userId expiry f1 f2) (MkSystem w []))
  = Some (promises w ++ [Promise f1 false],
          Some (length (promises w)),
          [Some (Await (Some (length (promises w))));
           Some (Await (Some (length (promises w))))]).
Proof.
  intros Hmiss Hnone. apply miss_no_answer in Hmiss.
  unfold no_answer, fresh_payload in Hmiss.
  unfold late_call, withCache, withCache_pending, loadFromCache, await_call.
  set (ck := cacheKey key userId) in *.
  simpl. unfold AsyncStorage_call. simpl.
  destruct (faulty w (GetItem ck)) eqn:Hf; simpl.
  - resume_late Hf Hf Hf Hnone.
  - destruct (store w !! ck) as [[| | data [| t] [[| ttl] |]] |] eqn:Hs; simpl in *;
      try (resume_late Hf Hs Hs Hnone).
    + destruct (clock w - t <? ttl) eqn:Hl; simpl in *.
      * destruct data; try discriminate. simpl.
        resume_late Hf Hs Hl Hnone.
      * resume_late Hf Hs Hl Hnone.
    + destruct (clock w - t <? DEFAULT_CACHE_EXPIRY) eqn:Hl; simpl in *.
      * destruct data; try discriminate. simpl.
        resume_late Hf Hs Hl Hnone.
      * resume_late Hf Hs Hl Hnone.
Qed.

Lemma late_call_waits_for_first_witness :
  option_map (fun s => (promises (world s),
                        pendingRequests (world s) !! "eiga_movie_details_603",
                        map suspended_at (tasks s)))
             (exec_all (late_call "eiga_movie_details_603" None (Some LONG_CACHE_EXPIRY)
                          (nth_fetch 1) (nth_fetch 2))
                       (MkSystem (fresh_world ∅ 1700000000000) []))
  = Some ([Promise (nth_fetch 1) false], Some 0%nat,
          [Some (Await (Some 0%nat)); Some (Await (Some 0%nat))]).
Proof.
  apply (late_call_waits_for_first "eiga_movie_details_603" None (Some LONG_CACHE_EXPIRY)
           (nth_fetch 1) (nth_fetch 2) (fresh_world ∅ 1700000000000)); reflexivity.
Defined.

(** ** The keys of tmdbService *)

Lemma pretty_N_char_numeric x : numeric (pretty_N_char x) = true.
Proof. unfold pretty_N_char. repeat case_match; reflexivity. Qed.

Lemma pretty_N_go_numeric x :
  forall s, all_numeric s = true -> all_numeric (pretty_N_go x s) = true.
Proof.
  induction (N.lt_wf_0 x) as [x _ IH]. intros s Hs.
  destruct (decide (0 < x)%N) as [Hx | Hx].
  - rewrite pretty_N_go_step by exact Hx. apply IH.
    + apply N.div_lt; lia.
    + simpl. rewrite pretty_N_char_numeric. exact Hs.
  - assert (x = 0%N) as -> by lia. rewrite pretty_N_go_0. exact Hs.
Qed.

Lemma pretty_N_numeric (x : N) : all_numeric (pretty x) = true.
Proof.
  unfold pretty, pretty_N. destruct (decide (x = 0%N)); [reflexivity |].
  apply pretty_N_go_numeric. reflexivity.
Qed.

(** A numeral is made of digits and, at most, a leading minus sign. *)
Lemma show_numeric n : all_numeric (show n) = true.
Proof.
  unfold show, pretty, pretty_Z. destruct n as [| p | p]; [reflexivity | |].
  - apply (pretty_N_numeric (Npos p)).
  - simpl. apply (pretty_N_numeric (Npos p)).
Qed.

Lemma show_inj n m : show n = show m -> n = m.
Proof. unfold show. apply pretty_Z_inj. Qed.

(** A numeral followed by a character that is not of a numeral can be read
    back in one way only. *)
Lemma numeral_split (a b x y : string) (c d : ascii) :
  all_numeric a = true -> all_numeric b = true ->
  numeric c = false -> numeric d = false ->
  a +:+ String c x = b +:+ String d y ->
  a = b /\ String c x = String d y.
Proof.
  revert b. induction a as [| e a IH]; intros [| e' b] Ha Hb Hc Hd Heq.
  - auto.
  - exfalso. change (String c x = String e' (b +:+ String d y)) in Heq.
    injection Heq as -> _. simpl in Hb. rewrite Hc in Hb. discriminate.
  - exfalso. change (String e (a +:+ String c x) = String d y) in Heq.
    injection Heq as -> _. simpl in Ha. rewrite Hd in Ha. discriminate.
  - change (String e (a +:+ String c x) = String e' (b +:+ String d y)) in Heq.
    injection Heq as -> Heq. simpl in Ha, Hb.
    apply andb_prop in Ha as [_ Ha]. apply andb_prop in Hb as [_ Hb].
    destruct (IH b Ha Hb Hc Hd Heq) as [-> H]. auto.
Qed.

Lemma show_split n m x y :
  show n +:+ String "_" x = show m +:+ String "_" y -> n = m /\ x = y.
Proof.
  intros H.
  destruct (numeral_split (show n) (show m) x y "_" "_" (show_numeric n)
              (show_numeric m) eq_refl eq_refl H) as [Hs Hx].
  split; [apply show_inj; exact Hs | injection Hx; auto].
Qed.

Lemma pretty_N_go_nonempty q :
  forall s, s <> ""%string -> pretty_N_go q s <> ""%string.
Proof.
  induction (N.lt_wf_0 q) as [q _ IH]. intros s Hs.
  destruct (decide (0 < q)%N) as [Hq | Hq].
  - rewrite pretty_N_go_step by exact Hq. apply IH; [apply N.div_lt; lia | discriminate].
  - assert (q = 0%N) as -> by lia. rewrite pretty_N_go_0. exact Hs.
Qed.

Lemma pretty_N_nonempty (x : N) : pretty x <> ""%string.
Proof.
  unfold pretty, pretty_N. destruct (decide (x = 0%N)); [discriminate |].
  rewrite pretty_N_go_step by lia. apply pretty_N_go_nonempty. discriminate.
Qed.

Lemma show_nonempty n : show n <> ""%string.
Proof.
  unfold show, pretty, pretty_Z. destruct n as [| p | p]; [discriminate | |].
  - apply (pretty_N_nonempty (Npos p)).
  - discriminate.
Qed.

(** No numeral continues as a word does. *)
Lemma show_not_word n (c : ascii) x y :
  numeric c = false -> show n +:+ x <> String c y.
Proof.
  intros Hc Heq. pose proof (show_numeric n) as Hn. pose proof (show_nonempty n) as Hne.
  destruct (show n) as [| e s]; [contradiction |].
  change (String e (s +:+ x) = String c y) in Heq. injection Heq as -> _.
  simpl in Hn. rewrite Hc in Hn. discriminate.
Qed.

Lemma movie_keys_apart (m other : Z) :
  (tmdbService.getMovieDetails_cacheKey m = tmdbService.getMovieDetails_cacheKey other ->
   m = other) /\
  (tmdbService.getMovieProviders_cacheKey m = tmdbService.getMovieProviders_cacheKey other ->
   m = other) /\
  tmdbService.getMovieDetails_cacheKey m <> tmdbService.getMovieProviders_cacheKey other.
Proof.
  unfold tmdbService.getMovieDetails_cacheKey, tmdbService.getMovieProviders_cacheKey.
  split; [| split].
  - intros H. apply append_cancel_l in H. apply (append_cancel_l "_") in H.
    apply show_inj. exact H.
  - intros H. apply append_cancel_l in H. apply (append_cancel_l "_providers_") in H.
    apply show_inj. exact H.
  - intros H. apply append_cancel_l in H. apply (append_cancel_l "_") in H.
    pose proof (append_empty_r (show m)) as He. rewrite <- He in H.
    exact (show_not_word m "p" "" _ eq_refl H).
Qed.

(** X14.  One movie, one entry.  [getMovieDetails] and [getMovieProviders],
    called alone, leave untouched what is cached for the details and the
    providers of every other movie, and each leaves the other's entry for
    the same movie untouched. *)
Theorem movie_entries_are_separate movieId request w :
  (pendingRequests w !! tmdbService.getMovieDetails_cacheKey movieId = None ->
   let w' := snd (run (tmdbService.getMovieDetails movieId request) w) in
   (forall other, other <> movieId ->
      store w' !! tmdbService.getMovieDetails_cacheKey other
      = store w !! tmdbService.getMovieDetails_cacheKey other) /\
   (forall any,
      store w' !! tmdbService.getMovieProviders_cacheKey any
      = store w !! tmdbService.getMovieProviders_cacheKey any)) /\
  (pendingRequests w !! tmdbService.getMovieProviders_cacheKey movieId = None ->
   let w' := snd (run (tmdbService.getMovieProviders movieId request) w) in
   (forall other, other <> movieId ->
      store w' !! tmdbService.getMovieProviders_cacheKey other
      = store w !! tmdbService.getMovieProviders_cacheKey other) /\
   (forall any,
      store w' !! tmdbService.getMovieDetails_cacheKey any
      = store w !! tmdbService.getMovieDetails_cacheKey any)).
Proof.
  split.
  - intros Hnone w'.
    destruct (run_withCache_frame (tmdbService.getMovieDetails_cacheKey movieId) request
                None (Some LONG_CACHE_EXPIRY) false w Hnone) as (Hothers & _).
    split.
    + intros other Hne. apply Hothers. intros Heq.
      apply Hne. apply (proj1 (movie_keys_apart other movieId)). exact Heq.
    + intros any. apply Hothers. intros Heq.
      apply (proj2 (proj2 (movie_keys_apart movieId any))). symmetry. exact Heq.
  - intros Hnone w'.
    destruct (run_withCache_frame (tmdbService.getMovieProviders_cacheKey movieId) request
                None (Some LONG_CACHE_EXPIRY) false w Hnone) as (Hothers & _).
    split.
    + intros other Hne. apply Hothers. intros Heq.
      apply Hne. apply (proj1 (proj2 (movie_keys_apart other movieId))). exact Heq.
    + intros any. apply Hothers. intros Heq.
      apply (proj2 (proj2 (movie_keys_apart any movieId))). exact Heq.
Qed.

Lemma movie_entries_are_separate_witness :
  let w := fresh_world
             {[ "eiga_movie_details_6030" :=
                  Envelope (JStr "another film") (Num 1700000000000)
                    (Some (Num 3600000)) ]}
             1700000060000 in
  let w' := snd (run (tmdbService.getMovieDetails 603 (Fulfilled (JStr "The Matrix")))
                   w) in
  store w' !! tmdbService.getMovieDetails_cacheKey 6030
    = Some (Envelope (JStr "another film") (Num 1700000000000) (Some (Num 3600000))) /\
  store w' !! tmdbService.getMovieProviders_cacheKey 603 = None.
Proof.
  intros w w'.
  destruct (movie_entries_are_separate 603 (Fulfilled (JStr "The Matrix")) w)
    as [Hdetails _].
  destruct (Hdetails eq_refl) as [Hother Hprov]. subst w'.
  split.
  - rewrite (Hother 6030) by discriminate. reflexivity.
  - rewrite (Hprov 603). reflexivity.
Defined.

(** X15.  The keys of the three discover lists.  Each key determines the
    arguments it was built from, and no key of one list is a key of
    another: provider 1 page 11 is not provider 11 page 1, and a region
    cannot make a provider list pass for a provider-and-genre list. *)
Theorem discover_keys_are_unambiguous :
  (forall p pg r p' pg' r',
     tmdbService.getMoviesByProvider_cacheKey p pg r
     = tmdbService.getMoviesByProvider_cacheKey p' pg' r' ->
     p = p' /\ pg = pg' /\ r = r') /\
  (forall g pg g' pg',
     tmdbService.getMoviesByGenre_cacheKey g pg
     = tmdbService.getMoviesByGenre_cacheKey g' pg' ->
     g = g' /\ pg = pg') /\
  (forall p g pg r p' g' pg' r',
     tmdbService.getMoviesByProviderAndGenre_cacheKey p g pg r
     = tmdbService.getMoviesByProviderAndGenre_cacheKey p' g' pg' r' ->
     p = p' /\ g = g' /\ pg = pg' /\ r = r') /\
  (forall p pg r g pg',
     tmdbService.getMoviesByProvider_cacheKey p pg r
     <> tmdbService.getMoviesByGenre_cacheKey g pg') /\
  (forall p pg r p' g pg' r',
     tmdbService.getMoviesByProvider_cacheKey p pg r
     <> tmdbService.getMoviesByProviderAndGenre_cacheKey p' g pg' r') /\
  (forall g pg p g' pg' r,
     tmdbService.getMoviesByGenre_cacheKey g pg
     <> tmdbService.getMoviesByProviderAndGenre_cacheKey p g' pg' r).
Proof.
  unfold tmdbService.getMoviesByProvider_cacheKey, tmdbService.getMoviesByGenre_cacheKey,
    tmdbService.getMoviesByProviderAndGenre_cacheKey.
  split; [| split; [| split; [| split; [| split]]]].
  - intros p pg r p' pg' r' H.
    apply append_cancel_l in H. apply (append_cancel_l "_provider_") in H.
    apply show_split in H as [-> H]. apply (append_cancel_l "page_") in H.
    apply show_split in H as [-> H]. apply (append_cancel_l "region_") in H. auto.
  - intros g pg g' pg' H.
    apply append_cancel_l in H. apply (append_cancel_l "_genre_") in H.
    apply show_split in H as [-> H]. apply (append_cancel_l "page_") in H.
    apply show_inj in H. auto.
  - intros p g pg r p' g' pg' r' H.
    apply append_cancel_l in H. apply (append_cancel_l "_provider_") in H.
    apply show_split in H as [-> H]. apply (append_cancel_l "genre_") in H.
    apply show_split in H as [-> H]. apply (append_cancel_l "page_") in H.
    apply show_split in H as [-> H]. apply (append_cancel_l "region_") in H. auto.
  - intros p pg r g pg' H. apply append_cancel_l in H. discriminate H.
  - intros p pg r p' g pg' r' H.
    apply append_cancel_l in H. apply (append_cancel_l "_provider_") in H.
    apply show_split in H as [_ H]. discriminate H.
  - intros g pg p g' pg' r H. apply append_cancel_l in H. discriminate H.
Qed.

Lemma discover_keys_are_unambiguous_witness :
  tmdbService.getMoviesByProvider_cacheKey 1 11 "IN"
  <> tmdbService.getMoviesByProvider_cacheKey 11 1 "IN".
Proof.
  destruct discover_keys_are_unambiguous as (Hprovider & _).
  intros Heq. apply Hprovider in Heq as (Hp & _). discriminate Hp.
Defined.

(** ** tmdbService: trending and its invalidation *)

(** X16.  [tmdbService.clearCache] always resolves and changes nothing but
    the two trending entries; what is cached for the details and the
    providers of any movie stays.  When AsyncStorage accepts the removals
    both trending entries are gone, and [getTrendingMovies], for either
    window, then sends its request. *)
Theorem tmdb_clearCache_resets_trending w :
  let day_key := tmdbService.getTrendingMovies_cacheKey day in
  let week_key := tmdbService.getTrendingMovies_cacheKey week in
  exists w',
    run tmdbService.clearCache w = (inr tt, w') /\
    (forall k, k <> day_key -> k <> week_key -> store w' !! k = store w !! k) /\
    (forall movieId,
       store w' !! tmdbService.getMovieDetails_cacheKey movieId
       = store w !! tmdbService.getMovieDetails_cacheKey movieId /\
       store w' !! tmdbService.getMovieProviders_cacheKey movieId
       = store w !! tmdbService.getMovieProviders_cacheKey movieId) /\
    (healthy w ->
     store w' = delete week_key (delete day_key (store w)) /\
     forall timeWindow request,
       pendingRequests w !! tmdbService.getTrendingMovies_cacheKey
                                (default week timeWindow) = None ->
       exists w2,
         run (tmdbService.getTrendingMovies timeWindow request) w'
           = (settlement_of request, w2) /\
         promises w2 = promises w' ++ [Promise request true]).
Proof.
  intros day_key week_key. unfold tmdbService.clearCache.
  rewrite run_mbind, run_await_call.
  destruct (run_clearCache (CACHE_KEYS.TRENDING_MOVIES +:+ "_day") None w)
    as (w1 & -> & Hst1 & (Hf1 & Hc1 & Hp1 & Hps1) & _).
  rewrite run_mbind, run_await_call.
  destruct (run_clearCache (CACHE_KEYS.TRENDING_MOVIES +:+ "_week") None w1)
    as (w2 & -> & Hst2 & (Hf2 & Hc2 & Hp2 & Hps2) & _).
  change (cacheKey (CACHE_KEYS.TRENDING_MOVIES +:+ "_day") None) with day_key in Hst1.
  change (cacheKey (CACHE_KEYS.TRENDING_MOVIES +:+ "_week") None) with week_key in Hst2.
  simpl run.
  assert (Hothers : forall k, k <> day_key -> k <> week_key ->
                      store w2 !! k = store w !! k).
  { intros k Hd Hw. rewrite Hst2.
    assert (H1 : store w1 !! k = store w !! k).
    { rewrite Hst1. destruct (faulty w _); [reflexivity | apply lookup_delete_ne; auto]. }
    destruct (faulty w1 _); [exact H1 |]. rewrite lookup_delete_ne by auto. exact H1. }
  eexists. split; [reflexivity |]. simpl. split; [exact Hothers |]. split.
  - intros movieId. split; apply Hothers; discriminate.
  - intros Hh.
    assert (Hst : store w2 = delete week_key (delete day_key (store w))).
    { rewrite Hst2, Hf1, Hh, Hst1, Hh. reflexivity. }
    split; [exact Hst |].
    intros timeWindow request Hnone.
    unfold tmdbService.getTrendingMovies.
    set (tw := default week timeWindow) in *.
    set (w3 := with_console _ w2).
    assert (Hmiss : no_answer w3 (cacheKey (tmdbService.getTrendingMovies_cacheKey tw) None)).
    { unfold no_answer, fresh_payload. subst w3. simpl. rewrite Hst.
      assert (Hgone : delete week_key (delete day_key (store w))
                      !! tmdbService.getTrendingMovies_cacheKey tw = None).
      { destruct tw.
        - rewrite lookup_delete_ne by discriminate. apply lookup_delete_eq.
        - apply lookup_delete_eq. }
      rewrite Hgone. destruct (faulty w2 _); reflexivity. }
    destruct (run_withCache_miss (tmdbService.getTrendingMovies_cacheKey tw) request None
                (Some (tmdbService.getTrendingMovies_expiry tw)) w3 Hmiss)
      as (w4 & w5 & Hrun & _ & (_ & _ & _ & Hps4) & _ & (Hps5 & _)).
    { subst w3. simpl. rewrite Hp2, Hp1. exact Hnone. }
    exists w5. split; [exact Hrun |]. rewrite Hps5, Hps4. reflexivity.
Qed.

Lemma tmdb_clearCache_resets_trending_witness :
  let w := fresh_world
             {[ "eiga_trending_movies_week" :=
                  Envelope (JStr "last week") (Num 1700000000000)
                    (Some (Num 900000)) ]}
             1700000060000 in
  exists w' w2,
    run tmdbService.clearCache w = (inr tt, w') /\
    run (tmdbService.getTrendingMovies None (Fulfilled (JStr "this week"))) w'
      = (inr (JStr "this week"), w2) /\
    promises w2 = promises w' ++ [Promise (Fulfilled (JStr "this week")) true].
Proof.
  intros w.
  destruct (tmdb_clearCache_resets_trending w) as (w' & Hrun & _ & _ & Hreset).
  destruct Hreset as [_ Hfetch]; [intros c; reflexivity |].
  destruct (Hfetch None (Fulfilled (JStr "this week")) eq_refl) as (w2 & Hrun2 & Hps).
  exists w', w2. auto.
Defined.

(** X17.  How long a trending list is served.  On a store that answers,
    after [getTrendingMovies] missed and fetched a list (which the JSON round
    trip does not turn into [null]), the same call [d] ms later is answered
    from the cache, with the list as the round trip gives it back and
    without a request,
    while [d] is under 5 minutes for the window ['day'] and under 15 minutes
    for ['week'] (the default window); from then on it sends its request. *)
Theorem trending_is_served_per_window timeWindow v request d w :
  let tw := default week timeWindow in
  let ttl := match tw with day => 300000 | week => 900000 end in
  let w1 := tick d (snd (run (tmdbService.getTrendingMovies timeWindow (Fulfilled v)) w)) in
  healthy w ->
  miss w (tmdbService.getTrendingMovies_cacheKey tw) None ->
  pendingRequests w !! tmdbService.getTrendingMovies_cacheKey tw = None ->
  JSON_roundtrip v <> null ->
  (d < ttl ->
   exists w2,
     run (tmdbService.getTrendingMovies timeWindow request) w1 = (inr (JSON_roundtrip v), w2) /\
     promises w2 = promises w1) /\
  (ttl <= d ->
   exists w2,
     run (tmdbService.getTrendingMovies timeWindow request) w1
       = (settlement_of request, w2) /\
     promises w2 = promises w1 ++ [Promise request true]).
Proof.
  intros tw ttl w1 Hh Hmiss Hnone Hv. apply miss_no_answer in Hmiss.
  unfold tmdbService.getTrendingMovies in *. fold tw in w1 |- *.
  destruct (fresh_after_withCache (tmdbService.getTrendingMovies_cacheKey tw) None
              (Some (tmdbService.getTrendingMovies_expiry tw)) v d w Hh Hmiss Hnone)
    as (Hfresh & Hnone' & _).
  fold w1 in Hfresh, Hnone'.
  assert (Httl : default DEFAULT_CACHE_EXPIRY (Some (tmdbService.getTrendingMovies_expiry tw))
                 = ttl) by (subst ttl; destruct tw; reflexivity).
  rewrite Httl in Hfresh.
  split.
  - intros Hlt. destruct (Z.ltb_spec d ttl) as [_ | Hge]; [| lia].
    destruct (run_withCache_hit (tmdbService.getTrendingMovies_cacheKey tw) request None
                (Some (tmdbService.getTrendingMovies_expiry tw)) w1 _ Hfresh)
      as (w2 & Hrun2 & _ & (_ & _ & _ & Hps2) & _).
    { apply not_null_neq. exact Hv. }
    exists w2. auto.
  - intros Hge. destruct (Z.ltb_spec d ttl) as [Hlt | _]; [lia |].
    assert (Hmiss2 : no_answer w1 (cacheKey (tmdbService.getTrendingMovies_cacheKey tw) None))
      by (unfold no_answer; rewrite Hfresh; reflexivity).
    destruct (run_withCache_miss (tmdbService.getTrendingMovies_cacheKey tw) request None
                (Some (tmdbService.getTrendingMovies_expiry tw)) w1 Hmiss2 Hnone')
      as (w1' & w2 & Hrun2 & _ & (_ & _ & _ & Hps1') & _ & (Hps2 & _)).
    exists w2. split; [exact Hrun2 |]. rewrite Hps2, Hps1'. reflexivity.
Qed.

Lemma trending_is_served_per_window_witness :
  let today := JArr [JStr "Dune"] in
  let later := JArr [JStr "Heat"] in
  let after d := tick d (snd (run (tmdbService.getTrendingMovies (Some day) (Fulfilled today))
                                (fresh_world ∅ 1700000000000))) in
  (exists w2,
     run (tmdbService.getTrendingMovies (Some day) (Fulfilled later)) (after 299999)
       = (inr today, w2) /\
     promises w2 = promises (after 299999)) /\
  (exists w2,
     run (tmdbService.getTrendingMovies (Some day) (Fulfilled later)) (after 300000)
       = (inr later, w2) /\
     promises w2 = promises (after 300000) ++ [Promise (Fulfilled later) true]).
Proof.
  intros today later after. split.
  - destruct (trending_is_served_per_window (Some day) today (Fulfilled later) 299999
                (fresh_world ∅ 1700000000000)) as [Hhit _].
    + intros c. reflexivity.
    + reflexivity.
    + reflexivity.
    + discriminate.
    + apply Hhit. simpl. lia.
  - destruct (trending_is_served_per_window (Some day) today (Fulfilled later) 300000
                (fresh_world ∅ 1700000000000)) as [_ Hmiss].
    + intros c. reflexivity.
    + reflexivity.
    + reflexivity.
    + discriminate.
    + apply Hmiss. simpl. lia.
Defined.

(** ** tmdbService: the searches *)

(** X18.  A query of fewer than three characters is not cached: [searchMovies]
    and [searchTV] then make no AsyncStorage call at all, leave the store and
    [pendingRequests] as they are, send exactly one request and settle as it
    does; a rejection is logged with the message of the function and thrown
    again. *)
Theorem short_queries_bypass_the_cache toLowerCase trim query request w :
  (js_length query < 3)%nat ->
  let logged msg := match request with
                    | Fulfilled _ => []
                    | Rejected e => [Error msg e]
                    end in
  let bypassed msg r :=
    fst r = settlement_of request /\
    calls (snd r) = calls w /\
    store (snd r) = store w /\
    pendingRequests (snd r) = pendingRequests w /\
    promises (snd r) = promises w ++ [Promise request true] /\
    console (snd r) = console w ++ logged msg in
  bypassed "Error searching movies:"%string
           (run (tmdbService.searchMovies toLowerCase trim query request) w) /\
  bypassed "Error searching TV shows:"%string
           (run (tmdbService.searchTV toLowerCase trim query request) w).
Proof.
  intros Hshort logged bypassed.
  assert (Hlt : (js_length query <? 3)%nat = true) by (apply Nat.ltb_lt; exact Hshort).
  unfold tmdbService.searchMovies, tmdbService.searchTV. rewrite Hlt.
  assert (Hrun : forall msg,
            bypassed msg
              (run (try_catch (response ← act (Invoke request); await (Some response))
                      (fun error => console_error msg error;; Throw error)) w)).
  { intros msg. subst bypassed logged. rewrite run_try_catch. simpl.
    unfold settle. simpl. rewrite settle_last, lookup_last. simpl.
    destruct request as [v | e]; simpl; rewrite ?app_nil_r; auto 10. }
  split; apply Hrun.
Qed.

Lemma short_queries_bypass_the_cache_witness :
  let w := fresh_world
             {[ "eiga_search_results_up" :=
                  Envelope (JStr "stale") (Num 1700000000000) None ]}
             1700000000001 in
  let r := run (tmdbService.searchMovies toLowerCase_ascii trim_ascii "Up"
                  (Rejected (Exception (JStr "Network Error")))) w in
  let r' := run (tmdbService.searchTV toLowerCase_ascii trim_ascii "日本"
                   (Fulfilled (JArr []))) w in
  (fst r = inl (Exception (JStr "Network Error")) /\
   calls (snd r) = [] /\
   console (snd r) = [Error "Error searching movies:" (Exception (JStr "Network Error"))]) /\
  (fst r' = inr (JArr []) /\ calls (snd r') = [] /\ store (snd r') = store w).
Proof.
  intros w r r'. split.
  - destruct (short_queries_bypass_the_cache toLowerCase_ascii trim_ascii "Up"
                (Rejected (Exception (JStr "Network Error"))) w) as [Hmovies _].
    + simpl. lia.
    + destruct Hmovies as (Hr & Hcalls & _ & _ & _ & Hconsole). auto.
  - destruct (short_queries_bypass_the_cache toLowerCase_ascii trim_ascii "日本"
                (Fulfilled (JArr [])) w) as [_ Htv].
    + vm_compute. lia.
    + destruct Htv as (Hr & Hcalls & Hstore & _). auto.
Defined.

(** What [withCache] fetched and saved under a key is what any [withCache]
    call on that composite key returns while the entry is fresh, without
    invoking its own [fetchFn]. *)
Lemma served_after_fetch key userId expiry v d w key' userId' expiry' request :
  let w1 := tick d (snd (run (withCache key (Fulfilled v) userId expiry false) w)) in
  healthy w ->
  no_answer w (cacheKey key userId) ->
  pendingRequests w !! cacheKey key userId = None ->
  JSON_roundtrip v <> null ->
  d < default DEFAULT_CACHE_EXPIRY expiry ->
  cacheKey key' userId' = cacheKey key userId ->
  exists w2,
    run (withCache key' request userId' expiry' false) w1 = (inr (JSON_roundtrip v), w2) /\
    store w2 = store w1 /\ promises w2 = promises w1.
Proof.
  intros w1 Hh Hmiss Hnone Hv Hd Hkey.
  destruct (fresh_after_withCache key userId expiry v d w Hh Hmiss Hnone) as (Hfresh & _).
  fold w1 in Hfresh. destruct (Z.ltb_spec d (default DEFAULT_CACHE_EXPIRY expiry)); [| lia].
  rewrite <- Hkey in Hfresh.
  destruct (run_withCache_hit key' request userId' expiry' w1 _ Hfresh)
    as (w2 & Hrun & Hst & (_ & _ & _ & Hps) & _).
  { apply not_null_neq. exact Hv. }
  exists w2. auto.
Qed.

(** X19.  Movie searches are cached under the normalised query: two queries
    of three characters or more have the same entry exactly when
    [query.toLowerCase().trim()] is the same for both.  So, on a store that
    answers, what a search for [q1] fetched is what a search for any such
    [q2] returns (as the JSON round trip gives it back, and unless that is
    [null]) during the next 5 minutes, without a request of its own. *)
Theorem searches_share_normalised_entry toLowerCase trim q1 q2 v request d w :
  let w1 := tick d (snd (run (tmdbService.searchMovies toLowerCase trim q1 (Fulfilled v)) w)) in
  (3 <= js_length q1)%nat ->
  (3 <= js_length q2)%nat ->
  (tmdbService.searchMovies_cacheKey toLowerCase trim q1
   = tmdbService.searchMovies_cacheKey toLowerCase trim q2
   <-> trim (toLowerCase q1) = trim (toLowerCase q2)) /\
  (trim (toLowerCase q1) = trim (toLowerCase q2) ->
   healthy w ->
   miss w (tmdbService.searchMovies_cacheKey toLowerCase trim q1) None ->
   pendingRequests w !! tmdbService.searchMovies_cacheKey toLowerCase trim q1 = None ->
   JSON_roundtrip v <> null ->
   d < 300000 ->
   exists w2,
     run (tmdbService.searchMovies toLowerCase trim q2 request) w1 = (inr (JSON_roundtrip v), w2) /\
     store w2 = store w1 /\ promises w2 = promises w1).
Proof.
  intros w1 Hq1 Hq2.
  assert (Hlong : forall q, (3 <= js_length q)%nat -> (js_length q <? 3)%nat = false)
    by (intros q Hq; apply Nat.ltb_ge; exact Hq).
  split.
  - unfold tmdbService.searchMovies_cacheKey. split.
    + intros H. apply append_cancel_l in H. apply (append_cancel_l "_") in H. exact H.
    + intros ->. reflexivity.
  - intros Hnorm Hh Hmiss Hnone Hv Hd. apply miss_no_answer in Hmiss.
    subst w1. unfold tmdbService.searchMovies.
    rewrite (Hlong q1 Hq1), (Hlong q2 Hq2).
    apply served_after_fetch; auto.
    unfold tmdbService.searchMovies_cacheKey. rewrite Hnorm. reflexivity.
Qed.

Lemma searches_share_normalised_entry_witness :
  let titles := JArr [JStr "Dune"; JStr "Dune: Part Two"] in
  let w1 := tick 1000 (snd (run (tmdbService.searchMovies toLowerCase_ascii trim_ascii
                                   "  Dune " (Fulfilled titles))
                              (fresh_world ∅ 1700000000000))) in
  exists w2,
    run (tmdbService.searchMovies toLowerCase_ascii trim_ascii "DUNE"
           (Rejected (Exception (JStr "offline")))) w1 = (inr titles, w2) /\
    store w2 = store w1 /\ promises w2 = promises w1.
Proof.
  intros titles w1.
  destruct (searches_share_normalised_entry toLowerCase_ascii trim_ascii "  Dune " "DUNE"
              titles (Rejected (Exception (JStr "offline"))) 1000
              (fresh_world ∅ 1700000000000)) as [_ Hserved].
  - simpl. lia.
  - simpl. lia.
  - apply Hserved.
    + reflexivity.
    + intros c. reflexivity.
    + reflexivity.
    + reflexivity.
    + discriminate.
    + lia.
Defined.

(** X20.  The entries of the two searches are not kept apart.  The key of a TV
    search is the key of the movie search for [tv_] followed by the same
    normalised query; so what a movie search fetched for such a query is
    returned by [searchTV] as its own result during the next 5 minutes,
    without a request. *)
Theorem tv_search_reads_movie_search_entry toLowerCase trim q1 q2 v request d w :
  let w1 := tick d (snd (run (tmdbService.searchMovies toLowerCase trim q1 (Fulfilled v)) w)) in
  (3 <= js_length q1)%nat ->
  (3 <= js_length q2)%nat ->
  trim (toLowerCase q1) = "tv_" +:+ trim (toLowerCase q2) ->
  tmdbService.searchTV_cacheKey toLowerCase trim q2
  = tmdbService.searchMovies_cacheKey toLowerCase trim q1 /\
  (healthy w ->
   miss w (tmdbService.searchMovies_cacheKey toLowerCase trim q1) None ->
   pendingRequests w !! tmdbService.searchMovies_cacheKey toLowerCase trim q1 = None ->
   JSON_roundtrip v <> null ->
   d < 300000 ->
   exists w2,
     run (tmdbService.searchTV toLowerCase trim q2 request) w1 = (inr (JSON_roundtrip v), w2) /\
     store w2 = store w1 /\ promises w2 = promises w1).
Proof.
  intros w1 Hq1 Hq2 Hnorm.
  assert (Hkey : tmdbService.searchTV_cacheKey toLowerCase trim q2
                 = tmdbService.searchMovies_cacheKey toLowerCase trim q1).
  { unfold tmdbService.searchTV_cacheKey, tmdbService.searchMovies_cacheKey.
    rewrite Hnorm. reflexivity. }
  split; [exact Hkey |].
  intros Hh Hmiss Hnone Hv Hd. apply miss_no_answer in Hmiss.
  assert (Hl1 : (js_length q1 <? 3)%nat = false) by (apply Nat.ltb_ge; exact Hq1).
  assert (Hl2 : (js_length q2 <? 3)%nat = false) by (apply Nat.ltb_ge; exact Hq2).
  subst w1. unfold tmdbService.searchMovies, tmdbService.searchTV. rewrite Hl1, Hl2.
  apply served_after_fetch; auto.
Qed.

Lemma tv_search_reads_movie_search_entry_witness :
  let movies := JArr [JStr "TV_Nation, the movie"] in
  let w1 := tick 1000 (snd (run (tmdbService.searchMovies toLowerCase_ascii trim_ascii
                                   "TV_Nation" (Fulfilled movies))
                              (fresh_world ∅ 1700000000000))) in
  exists w2,
    run (tmdbService.searchTV toLowerCase_ascii trim_ascii "nation"
           (Fulfilled (JArr [JStr "Nation, the series"]))) w1 = (inr movies, w2) /\
    store w2 = store w1 /\ promises w2 = promises w1.
Proof.
  intros movies w1.
  destruct (tv_search_reads_movie_search_entry toLowerCase_ascii trim_ascii
              "TV_Nation" "nation" movies
              (Fulfilled (JArr [JStr "Nation, the series"])) 1000
              (fresh_world ∅ 1700000000000)) as [_ Hserved].
  - simpl. lia.
  - simpl. lia.
  - reflexivity.
  - apply Hserved.
    + intros c. reflexivity.
    + reflexivity.
    + reflexivity.
    + discriminate.
    + lia.
Defined.

(** ** The logical keys, and roomService *)

(** No value of [CACHE_KEYS], with or without a scope, is a composite key of
    another one. *)
Lemma CACHE_KEYS_apart k1 k2 s1 s2 :
  k1 ∈ CACHE_KEYS_values -> k2 ∈ CACHE_KEYS_values ->
  cacheKey k1 s1 = cacheKey k2 s2 -> k1 = k2.
Proof.
  intros Hin1 Hin2 H. apply list_elem_of_In in Hin1, Hin2.
  unfold cacheKey in H.
  destruct s1 as [[| c1 u1] |], s2 as [[| c2 u2] |]; cbn [nonempty] in H;
    simpl in Hin1, Hin2;
    repeat (destruct Hin1 as [<- | Hin1]; [| try contradiction]);
    repeat (destruct Hin2 as [<- | Hin2]; [| try contradiction]);
    first [reflexivity | discriminate H].
Qed.

(** X21.  The logical keys are kept apart.  Two different values of
    [CACHE_KEYS] never give the same composite key, whatever the scopes; so a
    lone [withCache] on one of them (a getter of roomService, say) leaves
    untouched what is cached under any other one, for every scope. *)
Theorem logical_keys_are_kept_apart k1 k2 s1 s2 f expiry forceRefresh w :
  k1 ∈ CACHE_KEYS_values -> k2 ∈ CACHE_KEYS_values -> k1 <> k2 ->
  cacheKey k1 s1 <> cacheKey k2 s2 /\
  (pendingRequests w !! cacheKey k1 s1 = None ->
   store (snd (run (withCache k1 f s1 expiry forceRefresh) w)) !! cacheKey k2 s2
   = store w !! cacheKey k2 s2).
Proof.
  intros Hin1 Hin2 Hne.
  assert (Hapart : cacheKey k2 s2 <> cacheKey k1 s1).
  { intros Heq. apply Hne. symmetry. exact (CACHE_KEYS_apart k2 k1 s2 s1 Hin2 Hin1 Heq). }
  split; [congruence |].
  intros Hnone.
  destruct (run_withCache_frame k1 f s1 expiry forceRefresh w Hnone) as (Hothers & _).
  apply Hothers. exact Hapart.
Qed.

Lemma logical_keys_are_kept_apart_witness :
  let details := Envelope (JStr "Friday night") (Num 1700000000000) (Some (Num 900000)) in
  let w := fresh_world {[ "eiga_room_details_room7" := details ]} 1700000060000 in
  let w' := snd (run (roomService.getRoomMembers "room7"
                        (Fulfilled (JArr [JStr "ana"; JStr "raj"]))) w) in
  store w' !! "eiga_room_details_room7" = Some details.
Proof.
  intros details w w'.
  destruct (logical_keys_are_kept_apart CACHE_KEYS.ROOM_MEMBERS CACHE_KEYS.ROOM_DETAILS
              (Some "room7"%string) (Some "room7"%string)
              (Fulfilled (JArr [JStr "ana"; JStr "raj"]))
              (Some DEFAULT_CACHE_EXPIRY) false w) as [_ Hkept].
  - vm_compute. set_solver.
  - vm_compute. set_solver.
  - discriminate.
  - unfold w', roomService.getRoomMembers.
    change "eiga_room_details_room7"%string
      with (cacheKey CACHE_KEYS.ROOM_DETAILS (Some "room7"%string)).
    rewrite Hkept by reflexivity. reflexivity.
Defined.

(** Only the store, the console and the record of AsyncStorage calls change
    in a sweep. *)
Lemma clearUserCache_same_memory userId w :
  same_memory w (snd (run (clearUserCache userId) w)).
Proof.
  unfold clearUserCache, same_memory. rewrite run_try_catch. simpl.
  unfold AsyncStorage_call. simpl.
  destruct (faulty w GetAllKeys); simpl; [repeat split |].
  destruct (0 <? length _)%nat; simpl; [| repeat split].
  unfold AsyncStorage_call. simpl.
  destruct (faulty w (MultiRemove _)); simpl; repeat split.
Qed.

(** X22.  After the sweep for a user, on a store that answers,
    [getUserRooms] for that user goes to the database once and settles as
    the query does.  What is cached for a room is still there unless its key
    contains [_userId], and [getRoomById] still answers from it, without a
    query, when it was valid and not [null]. *)
Theorem sweep_resets_user_rooms userId query w :
  let w' := snd (run (clearUserCache userId) w) in
  healthy w ->
  userId <> ""%string ->
  pendingRequests w !! cacheKey CACHE_KEYS.USER_ROOMS (Some userId) = None ->
  (exists w2,
     run (roomService.getUserRooms userId query) w' = (settlement_of query, w2) /\
     promises w2 = promises w' ++ [Promise query true]) /\
  (forall roomId room,
     includes (cacheKey CACHE_KEYS.ROOM_DETAILS (Some roomId)) ("_" +:+ userId) = false ->
     valid_entry w (cacheKey CACHE_KEYS.ROOM_DETAILS (Some roomId)) room ->
     room <> null ->
     store w' !! cacheKey CACHE_KEYS.ROOM_DETAILS (Some roomId)
     = store w !! cacheKey CACHE_KEYS.ROOM_DETAILS (Some roomId) /\
     exists w2,
       run (roomService.getRoomById roomId query) w' = (inr room, w2) /\
       promises w2 = promises w').
Proof.
  intros w' Hh Hne Hrooms.
  destruct (clearUserCache_same_memory userId w) as (Hf & Hc & Hp & _).
  fold w' in Hf, Hc, Hp.
  assert (Hstore : forall k, store w' !! k
                     = if includes k ("_" +:+ userId) then None else store w !! k).
  { intros k. subst w'. apply clearUserCache_sweeps_by_inclusion. exact Hh. }
  split.
  - unfold roomService.getUserRooms.
    assert (Hmiss : no_answer w' (cacheKey CACHE_KEYS.USER_ROOMS (Some userId))).
    { unfold no_answer, fresh_payload.
      rewrite Hf, Hh, Hstore, scoped_key_includes by exact Hne. reflexivity. }
    destruct (run_withCache_miss CACHE_KEYS.USER_ROOMS query (Some userId)
                (Some DEFAULT_CACHE_EXPIRY) w' Hmiss)
      as (w1 & w2 & Hrun & _ & (_ & _ & _ & Hps1) & _ & (Hps2 & _)).
    { rewrite Hp. exact Hrooms. }
    exists w2. split; [exact Hrun |]. rewrite Hps2, Hps1. reflexivity.
  - intros roomId room Hout Hvalid Hroom.
    assert (Hkept : store w' !! cacheKey CACHE_KEYS.ROOM_DETAILS (Some roomId)
                    = store w !! cacheKey CACHE_KEYS.ROOM_DETAILS (Some roomId)).
    { rewrite Hstore, Hout. reflexivity. }
    split; [exact Hkept |].
    apply fresh_payload_valid in Hvalid.
    assert (Hfresh : fresh_payload w' (cacheKey CACHE_KEYS.ROOM_DETAILS (Some roomId))
                     = Some room).
    { rewrite <- Hvalid. unfold fresh_payload. rewrite Hf, Hc, Hkept. reflexivity. }
    unfold roomService.getRoomById.
    destruct (run_withCache_hit CACHE_KEYS.ROOM_DETAILS query (Some roomId)
                (Some DEFAULT_CACHE_EXPIRY) w' room Hfresh)
      as (w2 & Hrun & _ & (_ & _ & _ & Hps) & _).
    { apply not_null_neq. exact Hroom. }
    exists w2. auto.
Qed.

Lemma sweep_resets_user_rooms_witness :
  let entry name := Envelope (JStr name) (Num 1700000000000) (Some (Num 900000)) in
  let w := fresh_world (<["eiga_user_rooms_u1" := entry "rooms of u1"]>
                          {[ "eiga_room_details_room7" := entry "room 7" ]})
                       1700000060000 in
  let w' := snd (run (clearUserCache "u1") w) in
  (exists w2,
     run (roomService.getUserRooms "u1" (Fulfilled (JStr "rooms of u1, again"))) w'
       = (inr (JStr "rooms of u1, again"), w2) /\
     promises w2 = promises w' ++ [Promise (Fulfilled (JStr "rooms of u1, again")) true]) /\
  (exists w2,
     run (roomService.getRoomById "room7" (Fulfilled (JStr "rooms of u1, again"))) w'
       = (inr (JStr "room 7"), w2) /\
     promises w2 = promises w').
Proof.
  intros entry w w'.
  destruct (sweep_resets_user_rooms "u1" (Fulfilled (JStr "rooms of u1, again")) w)
    as (Hrooms & Hdetails).
  - intros c. reflexivity.
  - discriminate.
  - reflexivity.
  - split; [exact Hrooms |].
    destruct (Hdetails "room7"%string (JStr "room 7")) as (_ & Hserved).
    + reflexivity.
    + apply (ValidEntry _ _ _ 1700000000000 900000 (Some (Num 900000)));
        [reflexivity | reflexivity | reflexivity | simpl; lia].
    + discriminate.
    + exact Hserved.
Defined.
